(** * SSO authentication middleware (openhands/server/sso_middleware.py)

    A shallow embedding of the middleware and of the OAuth2 callback
    handler, with the process-wide token cache as a finite map, the
    monotonic clock and the identity provider as an environment, and
    Python exceptions as an error result. A verification is two steps,
    up to its [await client.post] and from there on, so that runs can
    interleave the calls of concurrent requests; clock readings are the
    rationals that floats denote, and the one float addition of the
    code rounds as binary64 does. Logging is left out. *)

From Stdlib Require Import Ascii String QArith Lqa.
From stdpp Require Import base option list strings gmap fin_maps.

Set Warnings "-register-all".

Local Open Scope string_scope.
Local Open Scope list_scope.

(** ** Python strings

    A [str] is a [string] whose characters are code points below 256
    (header values reach the application decoded as Latin-1). *)

Module PyStr.

Definition code (c : ascii) : N := Ascii.N_of_ascii c.

(** [str.lower] on one code point: A-Z and the Latin-1 capitals
    (0xC0-0xDE, the multiplication sign excepted) move up by 32. *)
Definition lower_char (c : ascii) : ascii :=
  let n := code c in
  if ((65 <=? n) && (n <=? 90))%N then Ascii.ascii_of_N (n + 32)
  else if ((192 <=? n) && (n <=? 222) && negb (n =? 215))%N
       then Ascii.ascii_of_N (n + 32)
  else c.

Fixpoint lower (s : string) : string :=
  match s with
  | EmptyString => EmptyString
  | String c s' => String (lower_char c) (lower s')
  end.

(** [s.startswith(p)] *)
Fixpoint startswith (p s : string) : bool :=
  match p, s with
  | EmptyString, _ => true
  | String a p', String b s' => if Ascii.eqb a b then startswith p' s' else false
  | String _ _, EmptyString => false
  end.

(** [p in s] for strings: some suffix of [s] starts with [p]. *)
Fixpoint contains (p s : string) : bool :=
  startswith p s ||
  match s with
  | EmptyString => false
  | String _ s' => contains p s'
  end.

(** [s[n:]] *)
Fixpoint drop (n : nat) (s : string) : string :=
  match n, s with
  | O, _ => s
  | S n', String _ s' => drop n' s'
  | S _, EmptyString => EmptyString
  end.

(** [str.isspace] on one code point below 256. *)
Definition is_space (c : ascii) : bool :=
  let n := code c in
  (((9 <=? n) && (n <=? 13)) || ((28 <=? n) && (n <=? 32))
   || (n =? 133) || (n =? 160))%N.

Fixpoint lstrip (s : string) : string :=
  match s with
  | String c s' => if is_space c then lstrip s' else s
  | EmptyString => EmptyString
  end.

Fixpoint rstrip (s : string) : string :=
  match s with
  | EmptyString => EmptyString
  | String c s' =>
      match rstrip s' with
      | EmptyString => if is_space c then EmptyString else String c EmptyString
      | r => String c r
      end
  end.

(** [s.strip()] *)
Definition strip (s : string) : string := rstrip (lstrip s).

(** Truth value of a [str]: [bool(s)]. *)
Definition truthy (s : string) : bool :=
  match s with EmptyString => false | String _ _ => true end.

Fixpoint all_space (s : string) : bool :=
  match s with
  | EmptyString => true
  | String c s' => is_space c && all_space s'
  end.

End PyStr.

(** ** JSON values, as [resp.json()] returns them

    JSON null decodes to Python's None: [JNull] is also the None that
    [_verify_token] returns on failure and that the middleware tests
    with [is None]. A string whose code points are all below 256 is a
    [JStr], over the same characters as the strings of the request; a
    string with a code point of 256 or more is a [JWide], the list of
    its code points. *)

Inductive json : Type :=
| JNull
| JBool (b : bool)
| JNum (q : Q)
| JStr (s : string)
| JWide (s : list N)
| JList (l : list json)
| JObj (m : gmap string json).

(** [bool(v)] for a decoded JSON value. *)
Definition json_truthy (v : json) : bool :=
  match v with
  | JNull => false
  | JBool b => b
  | JNum q => negb (Qeq_bool q 0)
  | JStr s => PyStr.truthy s
  | JWide s => match s with [] => false | _ => true end
  | JList l => match l with [] => false | _ => true end
  | JObj m => negb (Nat.eqb (size m) 0)
  end.

(** [v.get(key, default)]: only a dict has the method; on any other
    value Python raises AttributeError, which [None] stands for here. *)
Definition json_get (v : json) (key : string) (dflt : json) : option json :=
  match v with
  | JObj m => Some (default dflt (m !! key))
  | _ => None
  end.

(** [str(v)] holds a code point above U+00FF, which no Latin-1 header
    can carry. The text of a string is the string; that of a number or
    of a boolean is ASCII; that of a list or of a dict shows the strings
    inside, the code points Python holds unprintable escaped. The table
    of those is not part of the model, which takes every code point
    above U+00FF inside a list or a dict as shown. *)
Fixpoint has_wide (v : json) : bool :=
  match v with
  | JWide s => existsb (fun c => (255 <? c)%N) s
  | JList l => existsb has_wide l
  | JObj m => map_fold (fun _ v acc => has_wide v || acc) false m
  | _ => false
  end.

(** ** urllib.parse.urlencode *)

Module UrlEncode.

Definition hex_digit (n : N) : ascii :=
  if (n <? 10)%N then Ascii.ascii_of_N (48 + n) else Ascii.ascii_of_N (55 + n).

(** [%XX] for one byte, upper-case digits. *)
Definition percent (b : N) (rest : string) : string :=
  String "%" (String (hex_digit (b / 16)) (String (hex_digit (b mod 16)) rest)).

(** The characters [quote] never escapes: letters, digits and [_.-~]. *)
Definition always_safe (c : ascii) : bool :=
  let n := PyStr.code c in
  (((65 <=? n) && (n <=? 90)) || ((97 <=? n) && (n <=? 122))
   || ((48 <=? n) && (n <=? 57))
   || (n =? 95) || (n =? 46) || (n =? 45) || (n =? 126))%N.

(** [quote_plus(s)] with the default empty [safe]: a space becomes [+],
    a safe character stays, every other code point is escaped byte by
    byte in its UTF-8 encoding (two bytes from 128 on). *)
Fixpoint quote_plus (s : string) : string :=
  match s with
  | EmptyString => EmptyString
  | String c s' =>
      let n := PyStr.code c in
      if (n =? 32)%N then String "+" (quote_plus s')
      else if always_safe c then String c (quote_plus s')
      else if (n <? 128)%N then percent n (quote_plus s')
      else percent (192 + n / 64) (percent (128 + n mod 64) (quote_plus s'))
  end.

Definition pair (kv : string * string) : string :=
  quote_plus kv.1 +:+ "=" +:+ quote_plus kv.2.

(** [urlencode(params)] over the items of a dict, in insertion order. *)
Fixpoint urlencode (params : list (string * string)) : string :=
  match params with
  | [] => EmptyString
  | [kv] => pair kv
  | kv :: rest => pair kv +:+ "&" +:+ urlencode rest
  end.

End UrlEncode.

(** ** Requests and responses *)

(** What the handlers read of a Starlette [Request]. *)
Record Request := {
  url_path : string;                       (* request.url.path *)
  url_str : string;                        (* str(request.url) *)
  cookies : gmap string string;            (* request.cookies *)
  headers : list (string * string);        (* raw headers, names in lower case *)
  query_params : list (string * string);   (* the query string, in order *)
}.

(** [request.headers.get(name, default)]: the first header of that name. *)
Definition headers_get (name dflt : string) (hs : list (string * string)) : string :=
  match List.find (fun kv => String.eqb kv.1 (PyStr.lower name)) hs with
  | Some kv => kv.2
  | None => dflt
  end.

(** [request.query_params.get(name)]: the last value given for the name. *)
Definition query_get (name : string) (qs : list (string * string)) : option string :=
  match List.find (fun kv => String.eqb kv.1 name) (rev qs) with
  | Some kv => Some kv.2
  | None => None
  end.

(** The arguments of [response.set_cookie]. *)
Record Cookie := {
  ck_key : string;
  ck_value : json;
  ck_httponly : bool;
  ck_secure : bool;
  ck_samesite : string;
  ck_max_age : Z;
  ck_path : string;
}.

Inductive Response : Type :=
| JSONResponse (status_code : Z) (content : json)
| RedirectResponse (url : string) (status_code : Z) (set_cookie : list Cookie)
| CallNext (sso_user : option (gmap string json)).
    (* await call_next(request), with request.state.sso_user when set *)

(** ** The environment: clock, identity provider, cache *)

Inductive HTTPError := Timeout | ConnectError.

Inductive exn :=
| ExHTTPError (e : HTTPError)   (* httpx.HTTPError and its subclasses *)
| JSONDecodeError               (* resp.json() on a body that is not JSON *)
| AttributeError                (* .get on a value that is not a dict *)
| UnicodeEncodeError.           (* a header value outside Latin-1 *)

Inductive net_request :=
| PostJson (url : string) (body : gmap string json)
| PostForm (url : string) (data : list (string * string)).

(** A response as far as the code reads it: the status and the decoded
    body, [None] when the body is not valid JSON. *)
Record HttpResp := { resp_status : Z; resp_body : option json }.

Inductive net_outcome :=
| NetFail (e : HTTPError)
| NetResp (r : HttpResp).

Record World := {
  token_cache : gmap string (json * Q);      (* _token_cache *)
  ticks : nat;                               (* clock readings taken so far *)
  net_log : list (net_request * net_outcome) (* upstream calls made, oldest first *)
}.

Inductive Result (A : Type) :=
| Ok (a : A)
| Raise (e : exn).
Arguments Ok {A} a.
Arguments Raise {A} e.

Definition M (A : Type) : Type := World -> Result A * World.

#[global] Instance M_ret : MRet M := fun A a w => (Ok a, w).
#[global] Instance M_bind : MBind M := fun A B f m w =>
  match m w with
  | (Ok a, w') => f a w'
  | (Raise e, w') => (Raise e, w')
  end.

Definition raise {A} (e : exn) : M A := fun w => (Raise e, w).

(** [try: body except httpx.HTTPError: handler] *)
Definition try_except_HTTPError {A} (body : M A) (handler : HTTPError -> M A) : M A :=
  fun w =>
    match body w with
    | (Raise (ExHTTPError e), w') => handler e w'
    | r => r
    end.

Definition Qltb (x y : Q) : bool := negb (Qle_bool y x).

(** ** Float addition

    [time.monotonic()] returns a float and [+] on floats gives the
    binary64 value nearest to the exact sum, a tie going to the even
    significand. A finite float is the rational it denotes. The
    exponent range is left unbounded: the sum of a float and of 300
    never leaves it (300 is far below half the gap between the largest
    floats, and a sum of two floats too small for a full significand
    is exact). *)
Module Binary64.

(** [a / b] for [0 <= a] and [0 < b], to the nearest integer, ties to
    the even one. *)
Definition nearest_even (a b : Z) : Z :=
  let k := (a / b)%Z in
  match (2 * (a mod b) ?= b)%Z with
  | Lt => k
  | Gt => (k + 1)%Z
  | Eq => if Z.even k then k else (k + 1)%Z
  end.

(** Numerator and denominator of [(a / b) / 2^s]. *)
Definition scaled (a b : positive) (s : Z) : Z * Z :=
  if (0 <=? s)%Z then (Zpos a, (Zpos b * 2 ^ s)%Z)
  else ((Zpos a * 2 ^ (- s))%Z, Zpos b).

(** [floor (log2 (a / b))] *)
Definition exponent (a b : positive) : Z :=
  let e := (Z.log2 (Zpos a) - Z.log2 (Zpos b))%Z in
  let '(n, d) := scaled a b e in
  if (d <=? n)%Z then e else (e - 1)%Z.

(** The float nearest to [a / b]: a significand of 53 bits. *)
Definition round_pos (a b : positive) : Q :=
  let s := (exponent a b - 52)%Z in
  let '(n, d) := scaled a b s in
  let k := nearest_even n d in
  if (0 <=? s)%Z then inject_Z (k * 2 ^ s)
  else Qred (Qmake k (Z.to_pos (2 ^ (- s)))).

Definition round (q : Q) : Q :=
  match Qnum q with
  | Z0 => 0%Q
  | Zpos a => round_pos a (Qden q)
  | Zneg a => (- round_pos a (Qden q))%Q
  end.

(** [x + y] on floats. *)
Definition add (x y : Q) : Q := round (x + y).

End Binary64.

Arguments Binary64.add : simpl never.

(** [[k for k, (_, exp) in cache.items() if exp <= now]] *)
Definition expired_keys (now : Q) (c : gmap string (json * Q)) : list string :=
  map fst (List.filter (fun kv => Qle_bool kv.2.2 now) (map_to_list c)).

(** ** The middleware *)

(** Cookie name used to store the SSO access token. *)
Definition SSO_COOKIE_NAME : string := "maestrist_sso_token".

Definition _TOKEN_CACHE_TTL_SECONDS : Q := 300.

Definition UNAUTHENTICATED_PATH_PREFIXES : list string :=
  [ "/health"; "/alive"; "/auth/callback"; "/auth/logout";
    "/api/litellm-models"; "/api/options/models" ].

Definition UNAUTHENTICATED_EXACT_PATHS : gset string :=
  {[ "/health"; "/alive" ]}.

(** Return True if the path should be accessible without authentication. *)
Definition _is_public_path (path : string) : bool :=
  if bool_decide (path ∈ UNAUTHENTICATED_EXACT_PATHS) then true
  else existsb (fun prefix => PyStr.startswith prefix path)
               UNAUTHENTICATED_PATH_PREFIXES.

(** Extract the SSO token from the request cookie or Authorization header. *)
Definition _extract_token (request : Request) : option string :=
  let token := cookies request !! SSO_COOKIE_NAME in
  if from_option PyStr.truthy false token then token
  else
    let auth_header := headers_get "authorization" EmptyString (headers request) in
    if PyStr.startswith "bearer " (PyStr.lower auth_header)
    then Some (PyStr.strip (PyStr.drop 7 auth_header))
    else None.

(** Heuristic: True if the request likely comes from a web browser. *)
Definition _is_browser_request (request : Request) : bool :=
  let accept := headers_get "accept" EmptyString (headers request) in
  PyStr.contains "text/html" accept.

Section Middleware.

(** Configuration from the environment, fixed at start-up. *)
Variables SSO_ISSUER SSO_CLIENT_ID SSO_CLIENT_SECRET SSO_CALLBACK_URL : string.

(** [clock n] is the value of the n-th call of [time.monotonic()];
    [provider n req] is what the n-th upstream call gives. *)
Variable clock : nat -> Q.
Variable provider : nat -> net_request -> net_outcome.

Definition monotonic : M Q :=
  fun w => (Ok (clock (ticks w)),
            {| token_cache := token_cache w; ticks := S (ticks w); net_log := net_log w |}).

(** [client.post(...)] up to its await: the request leaves, and what
    will come back for it is settled. *)
Definition send_request (req : net_request) : M net_outcome :=
  fun w =>
    let out := provider (length (net_log w)) req in
    (Ok out, {| token_cache := token_cache w; ticks := ticks w;
                net_log := net_log w ++ [(req, out)] |}).

(** The await returns: with the response, or with the exception of
    the transport. *)
Definition await_response (out : net_outcome) : M HttpResp :=
  match out with
  | NetFail e => raise (ExHTTPError e)
  | NetResp r => mret r
  end.

(** [await client.post(...)] under [httpx.AsyncClient(timeout=10.0)],
    with nothing else running during the await. *)
Definition client_post (req : net_request) : M HttpResp :=
  out ← send_request req;
  await_response out.

(** [resp.json()] *)
Definition resp_json (r : HttpResp) : M json :=
  match resp_body r with
  | Some v => mret v
  | None => raise JSONDecodeError
  end.

Definition get_cache : M (gmap string (json * Q)) :=
  fun w => (Ok (token_cache w), w).

Definition put_cache (c : gmap string (json * Q)) : M unit :=
  fun w => (Ok tt, {| token_cache := c; ticks := ticks w; net_log := net_log w |}).

(** Remove expired entries from the token cache. *)
Definition _cache_cleanup : M unit :=
  now ← monotonic;
  c ← get_cache;
  let expired := expired_keys now c in
  put_cache (foldl (fun m k => delete k m) c expired).

(** [_verify_token] up to its [await client.post]: the clean-up, the
    look-up, and the request when no fresh entry answers. The result
    is the cached payload ([inl]), or what the await will deliver
    ([inr]) to the rest of the call. *)
Definition verify_before_await (token : string) : M (json + net_outcome) :=
  _cache_cleanup;;
  c ← get_cache;
  hit ← match c !! token with
        | Some (payload, expiry) =>
            now ← monotonic;
            mret (if Qltb now expiry then Some payload else None)
        | None => mret None
        end;
  match hit with
  | Some payload => mret (inl payload)
  | None =>
      let verify_url := SSO_ISSUER +:+ "/api/token/verify" in
      out ← send_request (PostJson verify_url {[ "token" := JStr token ]});
      mret (inr out)
  end.

(** [_verify_token] from the await on, inside its [try]: whatever ran
    during the await has left its mark on the cache and on the clock. *)
Definition verify_after_await (token : string) (out : net_outcome) : M json :=
  try_except_HTTPError
    (resp ← await_response out;
     if (resp_status resp =? 200)%Z then
       payload ← resp_json resp;
       now ← monotonic;
       c ← get_cache;
       put_cache (<[ token := (payload, Binary64.add now _TOKEN_CACHE_TTL_SECONDS) ]> c);;
       mret payload
     else
       c ← get_cache;
       put_cache (delete token c);;
       mret JNull)
    (fun _ => mret JNull).

(** Verify an access token by calling the SSO issuer's token verification
    endpoint.  Returns the decoded user payload on success, or None
    ([JNull]) on failure.  Results are cached for up to 5 minutes.
    This is the call with nothing else running during its await. *)
Definition _verify_token (token : string) : M json :=
  r ← verify_before_await token;
  match r with
  | inl payload => mret payload
  | inr out => verify_after_await token out
  end.

(** Build the SSO authorization URL to redirect unauthenticated browser users. *)
Definition _build_sso_login_url (redirect_after : option string) : string :=
  let params :=
    [ ("response_type", "code"); ("client_id", SSO_CLIENT_ID);
      ("redirect_uri", SSO_CALLBACK_URL); ("scope", "openid profile email") ] in
  let params :=
    if from_option PyStr.truthy false redirect_after
    then params ++ [("state", default EmptyString redirect_after)]
    else params in
  SSO_ISSUER +:+ "/authorize?" +:+ UrlEncode.urlencode params.

Definition quote : string := String (Ascii.ascii_of_nat 34) EmptyString.

(** Return a 401 JSON response or redirect depending on the client. *)
Definition _unauthenticated_response (request : Request) : Response :=
  if _is_browser_request request then
    let login_url := _build_sso_login_url (Some (url_str request)) in
    RedirectResponse login_url 302 []
  else
    JSONResponse 401
      (JObj {[ "error" := JStr "authentication_required";
               "message" := JStr
                 ("SSO authentication is required. Provide a valid token via "
                  +:+ "the " +:+ quote +:+ SSO_COOKIE_NAME +:+ quote
                  +:+ " cookie or an Authorization: Bearer header.") ]}).

(** [SSOMiddleware.dispatch] *)
Definition dispatch (request : Request) : M Response :=
  let path := url_path request in
  if _is_public_path path then mret (CallNext None)
  else
    match _extract_token request with
    | None => mret (_unauthenticated_response request)
    | Some token =>
        user_payload ← _verify_token token;
        match user_payload with
        | JNull => mret (_unauthenticated_response request)
        | JObj m =>
            mret (CallNext (Some
              {[ "sub" := default (JStr EmptyString) (m !! "sub");
                 "name" := default (JStr EmptyString) (m !! "name");
                 "role" := default (JStr EmptyString) (m !! "role");
                 "email" := default (JStr EmptyString) (m !! "email") ]}))
        | _ => raise AttributeError
        end
    end.

(** [response.set_cookie(...)]: the cookie goes into a header encoded
    as Latin-1, so a value whose text has a code point above U+00FF
    raises UnicodeEncodeError. *)
Definition response_set_cookie (response : Response) (c : Cookie) : M Response :=
  if has_wide (ck_value c) then raise UnicodeEncodeError
  else
    mret match response with
         | RedirectResponse url status_code cs => RedirectResponse url status_code (cs ++ [c])
         | r => r
         end.

(** OAuth2 authorization code callback: [GET /auth/callback]. *)
Definition sso_callback (request : Request) : M Response :=
  let code := query_get "code" (query_params request) in
  let state := query_get "state" (query_params request) in
  if negb (from_option PyStr.truthy false code) then
    mret (JSONResponse 400
            (JObj {[ "error" := JStr "missing_code";
                     "message" := JStr "No authorization code provided." ]}))
  else
    let token_url := SSO_ISSUER +:+ "/api/token" in
    let token_data :=
      [ ("grant_type", "authorization_code");
        ("code", default EmptyString code);
        ("redirect_uri", SSO_CALLBACK_URL);
        ("client_id", SSO_CLIENT_ID);
        ("client_secret", SSO_CLIENT_SECRET) ] in
    r ← try_except_HTTPError
          (resp ← client_post (PostForm token_url token_data); mret (inr resp))
          (fun _ => mret (inl (JSONResponse 502
             (JObj {[ "error" := JStr "sso_unavailable";
                      "message" := JStr "Unable to reach SSO server." ]}))));
    match r with
    | inl early => mret early
    | inr resp =>
        if negb (resp_status resp =? 200)%Z then
          mret (JSONResponse 401
                  (JObj {[ "error" := JStr "token_exchange_failed";
                           "message" := JStr "SSO token exchange failed." ]}))
        else
          token_response ← resp_json resp;
          match json_get token_response "access_token" (JStr EmptyString) with
          | None => raise AttributeError
          | Some access_token =>
              if negb (json_truthy access_token) then
                mret (JSONResponse 401
                        (JObj {[ "error" := JStr "no_access_token";
                                 "message" := JStr "No access token in SSO response." ]}))
              else
                let redirect_url :=
                  if from_option PyStr.truthy false state
                  then default EmptyString state else "/" in
                response_set_cookie (RedirectResponse redirect_url 302 [])
                  {| ck_key := SSO_COOKIE_NAME;
                     ck_value := access_token;
                     ck_httponly := true;
                     ck_secure := true;
                     ck_samesite := "lax";
                     ck_max_age := 86400;
                     ck_path := "/" |}
          end
    end.

End Middleware.

(** * Properties *)

(** ** Strings *)

Module PyStrFacts.
Import PyStr.

Lemma startswith_app p r : startswith p (p +:+ r) = true.
Proof.
  induction p as [|a p IH]; simpl; [done|].
  by rewrite Ascii.eqb_refl.
Qed.

Lemma startswith_split p s :
  startswith p s = true -> exists r, s = p +:+ r.
Proof.
  revert s. induction p as [|a p IH]; intros s H; simpl in *.
  - by exists s.
  - destruct s as [|b s]; [done|].
    destruct (Ascii.eqb a b) eqn:E; [|done].
    apply Ascii.eqb_eq in E as ->.
    destruct (IH _ H) as [r ->]. by exists r.
Qed.

Lemma startswith_iff p s :
  startswith p s = true <-> exists r, s = p +:+ r.
Proof.
  split; [apply startswith_split|].
  intros [r ->]. apply startswith_app.
Qed.

Lemma contains_iff p s :
  contains p s = true <-> exists l r, s = l +:+ p +:+ r.
Proof.
  induction s as [|c s IH].
  - simpl. rewrite orb_false_r, startswith_iff. split.
    + intros [r ->]. by exists EmptyString, r.
    + intros [l [r H]]. destruct l; simpl in H; [by exists r|done].
  - cbn [contains]. rewrite orb_true_iff, IH, startswith_iff. split.
    + intros [[r ->]|[l [r ->]]].
      * by exists EmptyString, r.
      * by exists (String c l), r.
    + intros [l [r H]]. destruct l as [|c' l]; simpl in H.
      * left. by exists r.
      * right. injection H as -> ->. by exists l, r.
Qed.

Lemma lower_app s t : lower (s +:+ t) = lower s +:+ lower t.
Proof. induction s as [|c s IH]; simpl; [done|]. by rewrite IH. Qed.

Lemma lower_length s : String.length (lower s) = String.length s.
Proof. induction s as [|c s IH]; simpl; [done|]. by rewrite IH. Qed.

Lemma drop_app s t : drop (String.length s) (s +:+ t) = t.
Proof. induction s as [|c s IH]; simpl; [by destruct t|done]. Qed.

(** A string takes a prefix of any length it has room for. *)
Lemma lower_startswith_split p s :
  startswith p (lower s) = true ->
  exists scheme rest, s = scheme +:+ rest /\ lower scheme = p.
Proof.
  revert s. induction p as [|a p IH]; intros s H.
  - by exists EmptyString, s.
  - destruct s as [|b s]; [done|]. simpl in H.
    destruct (Ascii.eqb a (lower_char b)) eqn:E; [|done].
    apply Ascii.eqb_eq in E as ->.
    destruct (IH _ H) as (scheme & rest & -> & <-).
    by exists (String b scheme), rest.
Qed.

Lemma rstrip_all_space s : all_space s = true -> rstrip s = EmptyString.
Proof.
  induction s as [|c s IH]; simpl; [done|].
  intros [Hc Hs]%andb_true_iff. by rewrite (IH Hs), Hc.
Qed.

Lemma lstrip_all_space s : all_space s = true -> lstrip s = EmptyString.
Proof.
  induction s as [|c s IH]; simpl; [done|].
  intros [Hc Hs]%andb_true_iff. by rewrite Hc, (IH Hs).
Qed.

Lemma strip_all_space s : all_space s = true -> strip s = EmptyString.
Proof. intros H. unfold strip. by rewrite (lstrip_all_space _ H). Qed.

Lemma truthy_iff s : truthy s = true <-> s <> EmptyString.
Proof. by destruct s. Qed.

End PyStrFacts.

(** ** The path classifier *)

Lemma is_public_path_iff path :
  _is_public_path path = true <->
  path ∈ UNAUTHENTICATED_EXACT_PATHS \/
  exists prefix rest,
    prefix ∈ UNAUTHENTICATED_PATH_PREFIXES /\ path = prefix +:+ rest.
Proof.
  unfold _is_public_path. case_bool_decide as Hex.
  - split; [by left|done].
  - rewrite existsb_exists. split.
    + intros (prefix & Hin & Hsw). right.
      apply PyStrFacts.startswith_split in Hsw as [rest ->].
      exists prefix, rest. by rewrite list_elem_of_In.
    + intros [?|(prefix & rest & Hin & ->)]; [done|].
      exists prefix. split; [by apply list_elem_of_In|].
      apply PyStrFacts.startswith_app.
Qed.

(** ** Float addition on known sums *)

(** 0.1 + 0.2 is the float next to 0.30000000000000004; 2^53 + 1 is a
    tie and goes to the even 2^53, 2^53 + 3 to 2^53 + 4; the float next
    to 1000.1 plus 300 is the float next to 1300.1, below the exact
    sum. *)
Lemma binary64_add_examples :
  Binary64.add (3602879701896397 # 36028797018963968)
               (3602879701896397 # 18014398509481984)
  = (1351079888211149 # 4503599627370496)%Q /\
  Binary64.add 9007199254740992 1 = 9007199254740992%Q /\
  Binary64.add 9007199254740992 3 = 9007199254740996%Q /\
  Binary64.add (8796972631510221 # 8796093022208) _TOKEN_CACHE_TTL_SECONDS
  = (2858950134543155 # 2199023255552)%Q /\
  ((2858950134543155 # 2199023255552) <
   (8796972631510221 # 8796093022208) + _TOKEN_CACHE_TTL_SECONDS)%Q.
Proof. repeat split; by vm_compute. Qed.

(** ** The cache and the verifier *)

Lemma Qltb_lt x y : Qltb x y = true <-> (x < y)%Q.
Proof.
  unfold Qltb. rewrite negb_true_iff, <- not_true_iff_false, Qle_bool_iff.
  split; [apply Qnot_le_lt|apply Qlt_not_le].
Qed.

Lemma Qltb_ge x y : Qltb x y = false <-> (y <= x)%Q.
Proof. unfold Qltb. by rewrite negb_false_iff, Qle_bool_iff. Qed.

Lemma elem_of_expired_keys now (c : gmap string (json * Q)) k :
  k ∈ expired_keys now c <->
  exists v, c !! k = Some v /\ Qle_bool v.2 now = true.
Proof.
  unfold expired_keys. rewrite list_elem_of_In, in_map_iff. split.
  - intros ([k' v] & <- & [Hin Hexp]%filter_In).
    exists v. split; [|done].
    by apply elem_of_map_to_list, list_elem_of_In.
  - intros (v & Hk & Hexp). exists (k, v). split; [done|].
    apply filter_In. split; [|done].
    by apply list_elem_of_In, elem_of_map_to_list.
Qed.

Lemma foldl_delete_lookup {V} (ks : list string) (c : gmap string V) k :
  foldl (fun m k => delete k m) c ks !! k =
  if bool_decide (k ∈ ks) then None else c !! k.
Proof.
  revert c. induction ks as [|a ks IH]; intros c; simpl; [done|].
  rewrite IH. destruct (decide (k = a)) as [->|Hne].
  - rewrite lookup_delete_eq.
    rewrite (bool_decide_eq_true_2 (a ∈ a :: ks)) by apply list_elem_of_here.
    by case_bool_decide.
  - rewrite lookup_delete_ne by done.
    assert (k ∈ a :: ks <-> k ∈ ks) as Hiff.
    { rewrite elem_of_cons. split; [by intros [?|?]|by right]. }
    by rewrite (bool_decide_ext _ _ Hiff).
Qed.

(** The cache once the entries expired at [now] are deleted. *)
Definition purged (now : Q) (c : gmap string (json * Q)) : gmap string (json * Q) :=
  foldl (fun m k => delete k m) c (expired_keys now c).

Lemma purged_lookup now c k :
  purged now c !! k =
  match c !! k with
  | Some v => if Qle_bool v.2 now then None else Some v
  | None => None
  end.
Proof.
  unfold purged. rewrite foldl_delete_lookup.
  case_bool_decide as Hin.
  - apply elem_of_expired_keys in Hin as (v & -> & ->). done.
  - destruct (c !! k) as [v|] eqn:Hk; [|done].
    destruct (Qle_bool v.2 now) eqn:Hexp; [|done].
    exfalso. apply Hin, elem_of_expired_keys. eauto.
Qed.

Lemma purged_lookup_Some now c k p e :
  purged now c !! k = Some (p, e) <-> c !! k = Some (p, e) /\ (now < e)%Q.
Proof.
  rewrite purged_lookup. destruct (c !! k) as [[p' e']|]; simpl.
  - destruct (Qle_bool e' now) eqn:Hexp.
    + split; [done|]. intros [[= -> ->] Hlt].
      apply Qle_bool_iff in Hexp. by apply Qlt_not_le in Hlt.
    + split; [|by intros [? _]]. intros [= -> ->]. split; [done|].
      by apply Qltb_lt; unfold Qltb; rewrite Hexp.
  - split; [done|by intros [? _]].
Qed.

Lemma purged_lookup_None now c k :
  purged now c !! k = None <->
  c !! k = None \/ exists p e, c !! k = Some (p, e) /\ (e <= now)%Q.
Proof.
  rewrite purged_lookup. destruct (c !! k) as [[p e]|]; simpl.
  - destruct (Qle_bool e now) eqn:Hexp.
    + split; [|done]. intros _. right. exists p, e.
      by split; [|apply Qle_bool_iff].
    + split; [done|]. intros [?|(p' & e' & [= <- <-] & Hle)]; [done|].
      apply Qle_bool_iff in Hle. congruence.
  - split; [by left|done].
Qed.

Section Verifier.

Variable SSO_ISSUER : string.
Variable clock : nat -> Q.
Variable provider : nat -> net_request -> net_outcome.

Local Abbreviation verify := (_verify_token SSO_ISSUER clock provider).

(** The request the verifier sends for a token. *)
Definition verify_request (token : string) : net_request :=
  PostJson (SSO_ISSUER +:+ "/api/token/verify") {[ "token" := JStr token ]}.

(** The answer the provider gives to a verification started in [w],
    should the call reach it. *)
Definition verify_answer (token : string) (w : World) : net_outcome :=
  provider (length (net_log w)) (verify_request token).

(** The reading the expiry test of a call started in [w] takes: the
    clean-up takes the first reading, the test the second. *)
Definition check_time (w : World) : Q := clock (S (ticks w)).

(** What the requests in flight do to the shared state, one step at a
    time: a whole verification whose await nothing interrupts, a
    verification as far as its await, or the rest of a verification
    that was waiting, with what its await delivers. *)
Inductive action :=
| Call (token : string)
| Send (token : string)
| Receive (token : string) (out : net_outcome).

(** The action starts a verification of [token]. *)
Definition begins (token : string) (a : action) : Prop :=
  match a with
  | Call t | Send t => t = token
  | Receive _ _ => False
  end.


(** The action ends a verification of [token] that was waiting, with
    a 200 of the provider. *)
Definition accepted_late (token : string) (a : action) : Prop :=
  match a with
  | Receive t (NetResp r) => t = token /\ resp_status r = 200%Z
  | _ => False
  end.

Definition act (a : action) (w : World) : World :=
  match a with
  | Call token => (verify token w).2
  | Send token => (verify_before_await SSO_ISSUER clock provider token w).2
  | Receive token out => (verify_after_await clock token out w).2
  end.

(** The state after a run of actions (one that raises leaves its
    effects behind like any other). *)
Definition after (acts : list action) (w : World) : World :=
  foldl (fun w a => act a w) w acts.


(** No entry for the token is fresh in a call started in [w]: whatever
    survives the clean-up has expired by the time of the test. *)
Definition stale (token : string) (w : World) : Prop :=
  forall p e,
    purged (clock (ticks w)) (token_cache w) !! token = Some (p, e) ->
    (e <= check_time w)%Q.

(** A verification started in [w] sends its request and gets [out]. *)
Definition reaches_provider (token : string) (w : World) (out : net_outcome) : Prop :=
  net_log (verify token w).2 = net_log w ++ [(verify_request token, out)].

Ltac run_verify :=
  unfold _verify_token, verify_before_await, verify_after_await,
    _cache_cleanup, try_except_HTTPError, client_post, send_request,
    await_response, resp_json, monotonic, get_cache, put_cache, raise,
    mbind, M_bind, mret, M_ret; simpl.

Lemma cache_cleanup_eq w :
  _cache_cleanup clock w =
  (Ok tt, {| token_cache := purged (clock (ticks w)) (token_cache w);
             ticks := S (ticks w); net_log := net_log w |}).
Proof. reflexivity. Qed.

(** A fresh entry answers the call: two clock readings, nothing else. *)
Lemma verify_hit token w p e :
  purged (clock (ticks w)) (token_cache w) !! token = Some (p, e) ->
  (check_time w < e)%Q ->
  verify token w =
  (Ok p, {| token_cache := purged (clock (ticks w)) (token_cache w);
            ticks := S (S (ticks w)); net_log := net_log w |}).
Proof.
  intros Hc Ht%Qltb_lt. unfold check_time in Ht. run_verify.
  fold (purged (clock (ticks w)) (token_cache w)).
  by rewrite Hc; simpl; rewrite Ht.
Qed.

(** The state in which a call that finds no fresh entry sends its
    request: the cache purged, one or two readings taken. *)
Definition at_request (token : string) (w : World) : World :=
  let c := purged (clock (ticks w)) (token_cache w) in
  {| token_cache := c;
     ticks := match c !! token with
              | Some _ => S (S (ticks w))
              | None => S (ticks w)
              end;
     net_log := net_log w |}.

(** What the network branch does from the state [w1] it starts in. *)
Definition network_branch (token : string) (w1 : World) : Result json * World :=
  let out := provider (length (net_log w1)) (verify_request token) in
  let log := net_log w1 ++ [(verify_request token, out)] in
  match out with
  | NetFail _ =>
      (Ok JNull, {| token_cache := token_cache w1; ticks := ticks w1; net_log := log |})
  | NetResp r =>
      if (resp_status r =? 200)%Z then
        match resp_body r with
        | Some p =>
            (Ok p, {| token_cache :=
                        <[ token := (p, Binary64.add (clock (ticks w1))
                                                     _TOKEN_CACHE_TTL_SECONDS) ]>
                          (token_cache w1);
                      ticks := S (ticks w1); net_log := log |})
        | None =>
            (Raise JSONDecodeError,
             {| token_cache := token_cache w1; ticks := ticks w1; net_log := log |})
        end
      else
        (Ok JNull, {| token_cache := delete token (token_cache w1);
                      ticks := ticks w1; net_log := log |})
  end.

Lemma verify_miss token w :
  stale token w ->
  verify token w = network_branch token (at_request token w).
Proof.
  intros Hstale. unfold stale, network_branch, at_request, check_time in *.
  run_verify.
  fold (purged (clock (ticks w)) (token_cache w)).
  fold (verify_request token).
  destruct (purged (clock (ticks w)) (token_cache w) !! token)
    as [[p e]|] eqn:Hc; simpl.
  - specialize (Hstale p e eq_refl). apply Qltb_ge in Hstale. rewrite Hstale.
    destruct (provider _ _) as [err|[st [body|]]]; simpl; [done|..];
      by destruct (st =? 200)%Z.
  - destruct (provider _ _) as [err|[st [body|]]]; simpl; [done|..];
      by destruct (st =? 200)%Z.
Qed.

(** Every call is one or the other. *)
Lemma verify_cases token w :
  (exists p e,
      purged (clock (ticks w)) (token_cache w) !! token = Some (p, e) /\
      (check_time w < e)%Q /\
      verify token w =
      (Ok p, {| token_cache := purged (clock (ticks w)) (token_cache w);
                ticks := S (S (ticks w)); net_log := net_log w |}))
  \/ (stale token w /\
      verify token w = network_branch token (at_request token w)).
Proof.
  destruct (purged (clock (ticks w)) (token_cache w) !! token)
    as [[p e]|] eqn:Hc.
  - destruct (Qlt_le_dec (check_time w) e) as [Hlt|Hle].
    + left. exists p, e. eauto using verify_hit.
    + assert (stale token w) as Hstale
        by (unfold stale; rewrite Hc; by intros ? ? [= <- <-]).
      right. eauto using verify_miss.
  - assert (stale token w) as Hstale by (unfold stale; by rewrite Hc).
    right. eauto using verify_miss.
Qed.

Lemma network_branch_log token w1 :
  net_log (network_branch token w1).2 =
  net_log w1 ++ [(verify_request token, provider (length (net_log w1)) (verify_request token))].
Proof.
  unfold network_branch.
  destruct (provider _ _) as [err|[st [body|]]]; simpl; [done|..];
    by destruct (st =? 200)%Z.
Qed.

Lemma reaches_provider_iff token w out :
  reaches_provider token w out <->
  stale token w /\ verify_answer token w = out.
Proof.
  unfold reaches_provider, verify_answer. split.
  - destruct (verify_cases token w) as [(p & e & _ & _ & ->)|[Hstale ->]].
    + simpl. intros Hlog. apply (f_equal length) in Hlog.
      rewrite length_app in Hlog. simpl in Hlog. lia.
    + rewrite network_branch_log. simpl.
      intros [_ [= ->]]%app_inj_tail. done.
  - intros [Hstale <-]. rewrite verify_miss by done.
    by rewrite network_branch_log.
Qed.

(** The four ways a call that reaches the provider can end. *)
Lemma verify_network_failure token w err :
  reaches_provider token w (NetFail err) ->
  verify token w =
  (Ok JNull, {| token_cache := token_cache (at_request token w);
                ticks := ticks (at_request token w);
                net_log := net_log w ++ [(verify_request token, NetFail err)] |}).
Proof.
  intros [Hstale Hans]%reaches_provider_iff. rewrite verify_miss by done.
  unfold network_branch, verify_answer in *. simpl. by rewrite Hans.
Qed.

Lemma verify_rejected token w r :
  reaches_provider token w (NetResp r) ->
  resp_status r <> 200%Z ->
  verify token w =
  (Ok JNull, {| token_cache := delete token (token_cache (at_request token w));
                ticks := ticks (at_request token w);
                net_log := net_log w ++ [(verify_request token, NetResp r)] |}).
Proof.
  intros [Hstale Hans]%reaches_provider_iff Hst%Z.eqb_neq.
  rewrite verify_miss by done.
  unfold network_branch, verify_answer in *. simpl. by rewrite Hans, Hst.
Qed.

Lemma verify_accepted token w p :
  reaches_provider token w
    (NetResp {| resp_status := 200; resp_body := Some p |}) ->
  verify token w =
  (Ok p,
   {| token_cache :=
        <[ token := (p, Binary64.add (clock (ticks (at_request token w)))
                                     _TOKEN_CACHE_TTL_SECONDS) ]>
          (token_cache (at_request token w));
      ticks := S (ticks (at_request token w));
      net_log := net_log w ++ [(verify_request token,
                   NetResp {| resp_status := 200; resp_body := Some p |})] |}).
Proof.
  intros [Hstale Hans]%reaches_provider_iff. rewrite verify_miss by done.
  unfold network_branch, verify_answer in *. simpl. by rewrite Hans.
Qed.

Lemma verify_undecodable token w :
  reaches_provider token w
    (NetResp {| resp_status := 200; resp_body := None |}) ->
  (verify token w).1 = Raise JSONDecodeError.
Proof.
  intros [Hstale Hans]%reaches_provider_iff. rewrite verify_miss by done.
  unfold network_branch, verify_answer in *. simpl. by rewrite Hans.
Qed.


(** *** The two halves of a call *)

(** What the rest of a call does, in [w], with what its await delivers. *)
Definition delivered (token : string) (out : net_outcome) (w : World)
    : Result json * World :=
  match out with
  | NetFail _ => (Ok JNull, w)
  | NetResp r =>
      if (resp_status r =? 200)%Z then
        match resp_body r with
        | Some p =>
            (Ok p, {| token_cache :=
                        <[ token := (p, Binary64.add (clock (ticks w))
                                                     _TOKEN_CACHE_TTL_SECONDS) ]>
                          (token_cache w);
                      ticks := S (ticks w); net_log := net_log w |})
        | None => (Raise JSONDecodeError, w)
        end
      else
        (Ok JNull, {| token_cache := delete token (token_cache w);
                      ticks := ticks w; net_log := net_log w |})
  end.

Lemma after_await_eq token out w :
  verify_after_await clock token out w = delivered token out w.
Proof.
  unfold delivered. run_verify.
  destruct out as [err|[st [body|]]]; simpl; [done|..];
    by destruct (st =? 200)%Z.
Qed.

Lemma before_await_hit token w p e :
  purged (clock (ticks w)) (token_cache w) !! token = Some (p, e) ->
  (check_time w < e)%Q ->
  verify_before_await SSO_ISSUER clock provider token w =
  (Ok (inl p), {| token_cache := purged (clock (ticks w)) (token_cache w);
                  ticks := S (S (ticks w)); net_log := net_log w |}).
Proof.
  intros Hc Ht%Qltb_lt. unfold check_time in Ht. run_verify.
  fold (purged (clock (ticks w)) (token_cache w)).
  by rewrite Hc; simpl; rewrite Ht.
Qed.

Lemma before_await_miss token w :
  stale token w ->
  verify_before_await SSO_ISSUER clock provider token w =
  (Ok (inr (verify_answer token w)),
   {| token_cache := token_cache (at_request token w);
      ticks := ticks (at_request token w);
      net_log := net_log w ++ [(verify_request token, verify_answer token w)] |}).
Proof.
  intros Hstale. unfold stale, at_request, check_time, verify_answer in *.
  run_verify.
  fold (purged (clock (ticks w)) (token_cache w)).
  fold (verify_request token).
  destruct (purged (clock (ticks w)) (token_cache w) !! token)
    as [[p e]|] eqn:Hc; simpl; [|done].
  specialize (Hstale p e eq_refl). apply Qltb_ge in Hstale. by rewrite Hstale.
Qed.

(** The call whose await nothing interrupts is its two halves, one
    after the other. *)
Lemma verify_halves token w :
  verify token w =
  match verify_before_await SSO_ISSUER clock provider token w with
  | (Ok (inl payload), w') => (Ok payload, w')
  | (Ok (inr out), w') => verify_after_await clock token out w'
  | (Raise e, w') => (Raise e, w')
  end.
Proof.
  unfold _verify_token, mbind, M_bind.
  by destruct (verify_before_await _ _ _ _ _) as [[[payload|out]|e] w'].
Qed.

End Verifier.

(** ** The dispatch of a request *)

(** Default configuration, and a few requests to run the code on. *)
Module Sample.

Definition issuer : string := "https://login.orcest.ai".
Definition client_id : string := "maestrist".
Definition client_secret : string := "s3cret".
Definition callback_url : string := "https://agent.orcest.ai/auth/callback".

Definition request (path : string) (cks : gmap string string)
    (hs qs : list (string * string)) : Request :=
  {| url_path := path; url_str := "https://agent.orcest.ai" +:+ path;
     cookies := cks; headers := hs; query_params := qs |}.

(** A clock that advances one second per reading. *)
Definition seconds (n : nat) : Q := inject_Z (Z.of_nat n).

Lemma seconds_monotone i j : (i <= j)%nat -> (seconds i <= seconds j)%Q.
Proof. intros Hij. unfold seconds. rewrite <- Zle_Qle. lia. Qed.

(** A clock that advances [d] seconds per reading. *)
Definition every (d : Z) (n : nat) : Q := inject_Z (d * Z.of_nat n).

Lemma every_monotone d i j :
  (0 <= d)%Z -> (i <= j)%nat -> (every d i <= every d j)%Q.
Proof. intros Hd Hij. unfold every. rewrite <- Zle_Qle. nia. Qed.

(** A clock whose readings are floats: the second is the float next to
    1000.1, the last the float next to 1300.1, which is the float sum
    of the second and of 300 and lies below their exact sum. *)
Definition float_clock (n : nat) : Q :=
  match n with
  | 0%nat => 1000
  | 1%nat => 8796972631510221 # 8796093022208
  | 2%nat => 1100
  | 3%nat => 1150
  | 4%nat => 1200
  | 5%nat => 1250
  | 6%nat => 1300
  | _ => 2858950134543155 # 2199023255552
  end.


(** A provider that gives every call the same outcome. *)
Definition always (out : net_outcome) (n : nat) (req : net_request) : net_outcome := out.

(** A provider that changes its mind after the first call. *)
Definition first_then (first rest : net_outcome) (n : nat) (req : net_request)
    : net_outcome :=
  match n with O => first | S _ => rest end.

Definition answer (status : Z) (body : option json) : net_outcome :=
  NetResp {| resp_status := status; resp_body := body |}.

Definition start : World := {| token_cache := ∅; ticks := 0; net_log := [] |}.

End Sample.

Section Dispatch.

Variables SSO_ISSUER SSO_CLIENT_ID SSO_CLIENT_SECRET SSO_CALLBACK_URL : string.
Variable clock : nat -> Q.
Variable provider : nat -> net_request -> net_outcome.

Local Abbreviation verify := (_verify_token SSO_ISSUER clock provider).
Local Abbreviation middleware :=
  (dispatch SSO_ISSUER SSO_CLIENT_ID SSO_CALLBACK_URL clock provider).
Local Abbreviation unauthenticated :=
  (_unauthenticated_response SSO_ISSUER SSO_CLIENT_ID SSO_CALLBACK_URL).

Ltac run_middleware :=
  unfold dispatch, mbind, M_bind, mret, M_ret, raise; simpl.

(** C2. A request whose path equals a member of the exact-match set or
    starts with a member of the prefix list is forwarded downstream with
    no identity attached, whatever credential it carries; the world is
    left as it was: no clock reading (the cache is not consulted) and no
    upstream call. *)
Theorem C2_public_path_admitted request w :
  (url_path request ∈ UNAUTHENTICATED_EXACT_PATHS \/
   exists prefix rest,
     prefix ∈ UNAUTHENTICATED_PATH_PREFIXES /\ url_path request = prefix +:+ rest) ->
  middleware request w = (Ok (CallNext None), w).
Proof.
  intros Hpub%is_public_path_iff. unfold dispatch. by rewrite Hpub.
Qed.

Lemma middleware_no_credential request w :
  _is_public_path (url_path request) = false ->
  _extract_token request = None ->
  middleware request w = (Ok (unauthenticated request), w).
Proof. intros Hp He. unfold dispatch. by rewrite Hp, He. Qed.

Lemma middleware_with_credential request token w :
  _is_public_path (url_path request) = false ->
  _extract_token request = Some token ->
  middleware request w =
  match verify token w with
  | (Ok JNull, w') => (Ok (unauthenticated request), w')
  | (Ok (JObj m), w') =>
      (Ok (CallNext (Some
         {[ "sub" := default (JStr EmptyString) (m !! "sub");
            "name" := default (JStr EmptyString) (m !! "name");
            "role" := default (JStr EmptyString) (m !! "role");
            "email" := default (JStr EmptyString) (m !! "email") ]})), w')
  | (Ok _, w') => (Raise AttributeError, w')
  | (Raise e, w') => (Raise e, w')
  end.
Proof.
  intros Hp He. run_middleware. rewrite Hp, He.
  destruct (verify token w) as [[[]|] w']; done.
Qed.

Lemma middleware_world request token w :
  _is_public_path (url_path request) = false ->
  _extract_token request = Some token ->
  (middleware request w).2 = (verify token w).2.
Proof.
  intros Hp He. rewrite (middleware_with_credential _ _ _ Hp He).
  destruct (verify token w) as [[[]|] w']; done.
Qed.

(** C3. On a protected path, a request with no extractable credential,
    or whose credential the verifier answers None for, gets: when its
    Accept header contains text/html, a 302 to the provider's authorize
    endpoint whose query is response_type=code, client_id, redirect_uri,
    scope=openid profile email and state = the requested URL; otherwise
    a 401 whose JSON body names the cookie and the header. *)
Theorem C3_unauthenticated_redirect_or_401 request w :
  _is_public_path (url_path request) = false ->
  url_str request <> EmptyString ->
  (_extract_token request = None \/
   exists token,
     _extract_token request = Some token /\ (verify token w).1 = Ok JNull) ->
  let accept := headers_get "accept" EmptyString (headers request) in
  ((exists l r, accept = l +:+ "text/html" +:+ r) ->
   (middleware request w).1 =
   Ok (RedirectResponse
         (SSO_ISSUER +:+ "/authorize?" +:+
          UrlEncode.urlencode
            [ ("response_type", "code"); ("client_id", SSO_CLIENT_ID);
              ("redirect_uri", SSO_CALLBACK_URL);
              ("scope", "openid profile email");
              ("state", url_str request) ])
         302 []))
  /\
  (~ (exists l r, accept = l +:+ "text/html" +:+ r) ->
   exists message,
     (middleware request w).1 =
     Ok (JSONResponse 401
           (JObj {[ "error" := JStr "authentication_required";
                    "message" := JStr message ]})) /\
     PyStr.contains SSO_COOKIE_NAME message = true /\
     PyStr.contains "Authorization: Bearer" message = true).
Proof.
  intros Hp Hurl Hcred accept.
  assert ((middleware request w).1 = Ok (unauthenticated request)) as ->.
  { destruct Hcred as [Hnone|(token & Hsome & Hv)].
    - by rewrite middleware_no_credential.
    - rewrite (middleware_with_credential _ _ _ Hp Hsome).
      destruct (verify token w) as [r w']. simpl in Hv. by subst r. }
  unfold _unauthenticated_response, _is_browser_request. fold accept.
  split.
  - intros Hsub%PyStrFacts.contains_iff. rewrite Hsub.
    unfold _build_sso_login_url. simpl.
    by destruct (url_str request).
  - intros Hsub. rewrite <- PyStrFacts.contains_iff in Hsub.
    apply not_true_is_false in Hsub. rewrite Hsub.
    eexists. split; [reflexivity|]. by vm_compute.
Qed.

(** C9. On a protected path, when the verification call answers 200
    with a JSON object, whatever its keys, the request is forwarded
    with an identity of exactly the four fields sub, name, role and
    email, each the payload's value when it has the key and the empty
    string when it has not. *)
Theorem C9_any_200_object_admitted request token w m :
  _is_public_path (url_path request) = false ->
  _extract_token request = Some token ->
  reaches_provider SSO_ISSUER clock provider token w
    (NetResp {| resp_status := 200; resp_body := Some (JObj m) |}) ->
  exists user : gmap string json,
    (middleware request w).1 = Ok (CallNext (Some user)) /\
    dom user = {[ "sub"; "name"; "role"; "email" ]} /\
    (forall k, k ∈ dom user ->
       user !! k = Some (default (JStr EmptyString) (m !! k))).
Proof.
  intros Hp He Hv%verify_accepted.
  rewrite (middleware_with_credential _ _ _ Hp He), Hv.
  eexists. split; [reflexivity|]. split.
  - rewrite !dom_insert_L, dom_singleton_L. set_solver.
  - intros k. rewrite !dom_insert_L, dom_singleton_L.
    rewrite !elem_of_union, !elem_of_singleton.
    intros [->|[->|[->| ->]]]; by simplify_map_eq.
Qed.


(** A verification call that fails on the network, or that the provider
    answers with another status than 200, never admits the request. *)
Lemma middleware_fails_closed request token w out :
  _is_public_path (url_path request) = false ->
  _extract_token request = Some token ->
  reaches_provider SSO_ISSUER clock provider token w out ->
  (forall body, out <> NetResp {| resp_status := 200; resp_body := body |}) ->
  (middleware request w).1 = Ok (unauthenticated request).
Proof.
  intros Hp He Hreach Hout.
  rewrite (middleware_with_credential _ _ _ Hp He).
  destruct out as [err|[st body]].
  - by rewrite (verify_network_failure _ _ _ _ _ _ Hreach).
  - rewrite (verify_rejected _ _ _ _ _ _ Hreach); [done|].
    simpl. intros ->. by destruct (Hout body).
Qed.

End Dispatch.

(** C1 fails on the code: a 200 answer whose body is not JSON makes
    [resp.json()] raise, and neither the verifier (which catches
    httpx.HTTPError only) nor the callback handler (where the call sits
    after the try block) catches it; the exception leaves the middleware and
    the handler. *)
Theorem C1_undecodable_200_body_escapes :
  let provider := Sample.always (Sample.answer 200 None) in
  (dispatch Sample.issuer Sample.client_id Sample.callback_url
     Sample.seconds provider
     (Sample.request "/api/private" {[ SSO_COOKIE_NAME := "tok" ]} [] [])
     Sample.start).1 = Raise JSONDecodeError /\
  (sso_callback Sample.issuer Sample.client_id Sample.client_secret
     Sample.callback_url provider
     (Sample.request "/auth/callback" ∅ [] [("code", "abc123")])
     Sample.start).1 = Raise JSONDecodeError.
Proof. split; by vm_compute. Qed.

(** ** The credential extractor *)

(** C7 as stated fails: a session cookie that is present with an empty
    value does not win; the extractor goes on to the Authorization
    header and returns its token. *)
Lemma C7_empty_cookie_falls_through :
  let request :=
    Sample.request "/api/private" {[ SSO_COOKIE_NAME := EmptyString ]}
      [("authorization", "Bearer abc")] [] in
  cookies request !! SSO_COOKIE_NAME = Some EmptyString /\
  _extract_token request = Some "abc" /\
  _extract_token request <> cookies request !! SSO_COOKIE_NAME.
Proof. by vm_compute. Qed.

(** C7, amended. A session cookie with a non-empty value is returned
    whatever the Authorization header holds. With the cookie absent or
    empty, the header alone decides: when it is a seven-character scheme
    equal to [bearer ] up to letter case followed by a rest, the rest is
    returned with its surrounding white space stripped; when it has no
    such shape (a missing header reads as the empty string), the result
    is None. *)
Theorem C7_extraction_priority request :
  let cookie := cookies request !! SSO_COOKIE_NAME in
  let auth := headers_get "authorization" EmptyString (headers request) in
  (forall v, cookie = Some v -> v <> EmptyString ->
             _extract_token request = Some v) /\
  (cookie = None \/ cookie = Some EmptyString ->
   (forall scheme rest,
      auth = scheme +:+ rest -> PyStr.lower scheme = "bearer " ->
      _extract_token request = Some (PyStr.strip rest)) /\
   (~ (exists scheme rest,
         auth = scheme +:+ rest /\ PyStr.lower scheme = "bearer ") ->
    _extract_token request = None)).
Proof.
  intros cookie auth. unfold _extract_token. fold cookie auth. split.
  - intros v -> Hv. simpl. by apply PyStrFacts.truthy_iff in Hv as ->.
  - intros Hck.
    assert (from_option PyStr.truthy false cookie = false) as ->
      by (by destruct Hck as [-> | ->]).
    split.
    + intros scheme rest -> Hscheme.
      rewrite PyStrFacts.lower_app, Hscheme, PyStrFacts.startswith_app.
      assert (String.length scheme = 7%nat) as Hlen
        by (by rewrite <- PyStrFacts.lower_length, Hscheme).
      by rewrite <- Hlen, PyStrFacts.drop_app.
    + intros Hshape.
      destruct (PyStr.startswith "bearer " (PyStr.lower auth)) eqn:Hsw; [|done].
      destruct Hshape.
      apply PyStrFacts.lower_startswith_split in Hsw
        as (scheme & rest & ? & ?). eauto.
Qed.

(** ** The callback handler *)

Section Callback.

Variables SSO_ISSUER SSO_CLIENT_ID SSO_CLIENT_SECRET SSO_CALLBACK_URL : string.
Variable provider : nat -> net_request -> net_outcome.

Local Abbreviation callback :=
  (sso_callback SSO_ISSUER SSO_CLIENT_ID SSO_CLIENT_SECRET SSO_CALLBACK_URL provider).

(** The form the handler posts to the token endpoint. *)
Definition exchange_request (code : string) : net_request :=
  PostForm (SSO_ISSUER +:+ "/api/token")
    [ ("grant_type", "authorization_code"); ("code", code);
      ("redirect_uri", SSO_CALLBACK_URL); ("client_id", SSO_CLIENT_ID);
      ("client_secret", SSO_CLIENT_SECRET) ].

Definition exchange_answer (code : string) (w : World) : net_outcome :=
  provider (length (net_log w)) (exchange_request code).

Ltac run_callback Hcode Hne :=
  unfold sso_callback, exchange_answer, exchange_request,
    response_set_cookie, try_except_HTTPError, client_post, send_request,
    await_response, resp_json, raise, mbind, M_bind, mret, M_ret in *;
  rewrite Hcode; simpl;
  apply PyStrFacts.truthy_iff in Hne as ->; simpl.

(** A network failure during the exchange gives 502. *)
Lemma callback_unreachable request w code err :
  query_get "code" (query_params request) = Some code ->
  code <> EmptyString ->
  exchange_answer code w = NetFail err ->
  (callback request w).1 =
  Ok (JSONResponse 502
        (JObj {[ "error" := JStr "sso_unavailable";
                 "message" := JStr "Unable to reach SSO server." ]})).
Proof. intros Hcode Hne Hans. run_callback Hcode Hne. by rewrite Hans. Qed.

(** An answer with another status than 200 gives 401. *)
Lemma callback_rejected request w code st body :
  query_get "code" (query_params request) = Some code ->
  code <> EmptyString ->
  exchange_answer code w = NetResp {| resp_status := st; resp_body := body |} ->
  st <> 200%Z ->
  (callback request w).1 =
  Ok (JSONResponse 401
        (JObj {[ "error" := JStr "token_exchange_failed";
                 "message" := JStr "SSO token exchange failed." ]})).
Proof.
  intros Hcode Hne Hans Hst. run_callback Hcode Hne. rewrite Hans. simpl.
  apply Z.eqb_neq in Hst. by rewrite Hst.
Qed.


End Callback.


(** ** The cache over runs of calls *)

Section CacheRuns.

Variable SSO_ISSUER : string.
Variable clock : nat -> Q.
Variable provider : nat -> net_request -> net_outcome.

Local Abbreviation verify := (_verify_token SSO_ISSUER clock provider).
Local Abbreviation before_await := (verify_before_await SSO_ISSUER clock provider).
Local Abbreviation after_await := (verify_after_await clock).
Local Abbreviation run := (after SSO_ISSUER clock provider).
Local Abbreviation reaches := (reaches_provider SSO_ISSUER clock provider).

Lemma at_request_ticks token w :
  (ticks w < ticks (at_request clock token w))%nat.
Proof. unfold at_request. simpl. destruct (_ !! _); lia. Qed.


Lemma network_branch_other token w1 k :
  k <> token ->
  token_cache (network_branch SSO_ISSUER clock provider token w1).2 !! k =
  token_cache w1 !! k.
Proof.
  intros Hne. unfold network_branch.
  destruct (provider _ _) as [err|[st [body|]]]; simpl; [done|..];
    destruct (st =? 200)%Z; simpl;
    by rewrite ?lookup_insert_ne, ?lookup_delete_ne.
Qed.


(** A call for another token leaves an entry as the clean-up left it. *)
Lemma verify_other token w k :
  k <> token ->
  token_cache (verify token w).2 !! k =
  purged (clock (ticks w)) (token_cache w) !! k.
Proof.
  intros Hne.
  destruct (verify_cases SSO_ISSUER clock provider token w)
    as [(p & e & _ & _ & ->)|[_ ->]]; [done|].
  by rewrite network_branch_other.
Qed.

(** The first half of a call does to the cache what the clean-up does. *)
Lemma before_await_world token w :
  token_cache (before_await token w).2 = purged (clock (ticks w)) (token_cache w) /\
  (ticks w < ticks (before_await token w).2)%nat.
Proof.
  destruct (verify_cases SSO_ISSUER clock provider token w)
    as [(p & e & Hkept & Hlt & _)|[Hstale _]].
  - rewrite (before_await_hit _ _ _ _ _ _ _ Hkept Hlt). simpl. split; [done|lia].
  - rewrite before_await_miss by done. simpl. split; [done|].
    apply at_request_ticks.
Qed.

(** The second half touches the entry of its own token only. *)
Lemma after_await_other token out w k :
  k <> token ->
  token_cache (after_await token out w).2 !! k = token_cache w !! k.
Proof.
  intros Hne. rewrite after_await_eq. unfold delivered.
  destruct out as [err|[st [body|]]]; simpl; [done|..];
    destruct (st =? 200)%Z; simpl;
    by rewrite ?lookup_insert_ne, ?lookup_delete_ne.
Qed.



Lemma after_cons a acts w :
  run (a :: acts) w = run acts (act SSO_ISSUER clock provider a w).
Proof. reflexivity. Qed.





(** Nothing brings an entry in but a verification of the token itself:
    one that starts, or one that was waiting and gets its 200. *)
Lemma absent_persists_act a w token :
  ~ begins token a ->
  ~ accepted_late token a ->
  token_cache w !! token = None ->
  token_cache (act SSO_ISSUER clock provider a w) !! token = None.
Proof.
  intros Hbegins Hlate Habs. destruct a as [t|t|t out]; simpl in *.
  - rewrite verify_other by (by intros ->).
    apply purged_lookup_None. by left.
  - destruct (before_await_world t w) as [-> _].
    apply purged_lookup_None. by left.
  - destruct (decide (t = token)) as [->|Hne];
      [|by rewrite after_await_other].
    rewrite after_await_eq. unfold delivered.
    destruct out as [err|[st body]]; simpl in *; [done|].
    destruct (st =? 200)%Z eqn:Hst; simpl.
    + apply Z.eqb_eq in Hst. by destruct Hlate.
    + apply lookup_delete_eq.
Qed.

Lemma absent_persists acts w token :
  Forall (fun a => ~ begins token a /\ ~ accepted_late token a) acts ->
  token_cache w !! token = None ->
  token_cache (run acts w) !! token = None.
Proof.
  intros Hacts. revert w.
  induction Hacts as [|a acts [Hb Hl] _ IH]; intros w Habs; [done|].
  rewrite after_cons. by apply IH, absent_persists_act.
Qed.

Lemma absent_is_stale token w :
  token_cache w !! token = None -> stale clock token w.
Proof.
  intros Habs p e [Hentry _]%purged_lookup_Some. congruence.
Qed.


(** C6, amended. When the await of a verification of a token delivers
    an answer with another status than 200, the verifier returns None
    and the cache holds no entry for the token afterwards, whether it
    held one before or not (so does the whole call that reaches the
    provider and is answered so); after any run of actions in which no
    verification of the token starts and none that was waiting gets a
    200 of the provider, the next call for the token sends a request
    to the provider again. *)
Theorem C6_rejection_evicts_until_reinserted token w r acts :
  resp_status r <> 200%Z ->
  Forall (fun a => ~ begins token a /\ ~ accepted_late token a) acts ->
  let w1 := (verify_after_await clock token (NetResp r) w).2 in
  let w2 := after SSO_ISSUER clock provider acts w1 in
  (verify_after_await clock token (NetResp r) w).1 = Ok JNull /\
  (reaches token w (NetResp r) ->
   (verify token w).1 = Ok JNull /\
   token_cache (verify token w).2 !! token = None) /\
  token_cache w1 !! token = None /\
  net_log (verify token w2).2 =
  net_log w2 ++ [(verify_request SSO_ISSUER token,
                  verify_answer SSO_ISSUER provider token w2)].
Proof.
  intros Hst%Z.eqb_neq Hacts w1 w2.
  assert (token_cache w1 !! token = None) as Hgone.
  { subst w1. rewrite after_await_eq. simpl. rewrite Hst. simpl.
    apply lookup_delete_eq. }
  split; [by rewrite after_await_eq; simpl; rewrite Hst|].
  split.
  { intros Hreach. apply Z.eqb_neq in Hst.
    rewrite (verify_rejected _ _ _ _ _ _ Hreach Hst). simpl.
    split; [done|apply lookup_delete_eq]. }
  split; [done|].
  apply reaches_provider_iff. split; [|done].
  by apply absent_is_stale, absent_persists.
Qed.

End CacheRuns.

(** ** The cache invariant *)

Section CacheInvariant.

Variables SSO_ISSUER SSO_CLIENT_ID SSO_CLIENT_SECRET SSO_CALLBACK_URL : string.
Variable clock : nat -> Q.
Variable provider : nat -> net_request -> net_outcome.

Local Abbreviation verify := (_verify_token SSO_ISSUER clock provider).
Local Abbreviation before_await := (verify_before_await SSO_ISSUER clock provider).
Local Abbreviation after_await := (verify_after_await clock).
Local Abbreviation middleware :=
  (dispatch SSO_ISSUER SSO_CLIENT_ID SSO_CALLBACK_URL clock provider).
Local Abbreviation callback :=
  (sso_callback SSO_ISSUER SSO_CLIENT_ID SSO_CLIENT_SECRET SSO_CALLBACK_URL provider).

(** Every entry was put in after the provider answered 200 with its
    payload to a verification of its token, and expires at the float
    sum of a reading of the clock taken by then and of the TTL. (The
    state does not remember which reading: [inserted] below ties it to
    the insertion.) *)
Definition cache_inv (w : World) : Prop :=
  forall token p e,
    token_cache w !! token = Some (p, e) ->
    exists n,
      (n < ticks w)%nat /\
      e = Binary64.add (clock n) _TOKEN_CACHE_TTL_SECONDS /\
      (verify_request SSO_ISSUER token,
       NetResp {| resp_status := 200; resp_body := Some p |}) ∈ net_log w.


(** The operations that run against the shared state: the clean-up, a
    verification (whole, as far as its await, or from its await on with
    the answer to a request that was sent), the middleware, and the
    callback handler. *)
Inductive step : World -> World -> Prop :=
| step_cleanup w : step w (_cache_cleanup clock w).2
| step_verify token w : step w (verify token w).2
| step_send token w : step w (before_await token w).2
| step_receive token out w :
    (verify_request SSO_ISSUER token, out) ∈ net_log w ->
    step w (after_await token out w).2
| step_middleware request w : step w (middleware request w).2
| step_callback request w : step w (callback request w).2.

Inductive reachable : World -> Prop :=
| reach_start w : token_cache w = ∅ -> reachable w
| reach_step w w' : reachable w -> step w w' -> reachable w'.

Lemma cache_inv_weaken w w' :
  cache_inv w ->
  (forall k v, token_cache w' !! k = Some v -> token_cache w !! k = Some v) ->
  (ticks w <= ticks w')%nat ->
  (exists more, net_log w' = net_log w ++ more) ->
  cache_inv w'.
Proof.
  intros Hinv Hsub Hticks [more Hlog] token p e Hentry.
  destruct (Hinv token p e (Hsub _ _ Hentry)) as (n & Hn & He & Hin).
  exists n. split; [lia|]. split; [done|].
  rewrite Hlog. apply elem_of_app. by left.
Qed.

Lemma cache_inv_empty w : token_cache w = ∅ -> cache_inv w.
Proof. intros Hempty token p e. by rewrite Hempty, lookup_empty. Qed.

Lemma cache_inv_cleanup w : cache_inv w -> cache_inv (_cache_cleanup clock w).2.
Proof.
  intros Hinv. rewrite cache_cleanup_eq. simpl.
  apply (cache_inv_weaken w); simpl; [done| |lia|by exists []; rewrite app_nil_r].
  intros k [p e] Hk. by apply purged_lookup_Some in Hk as [? _].
Qed.

Lemma cache_inv_at_request token w :
  cache_inv w -> cache_inv (at_request clock token w).
Proof.
  intros Hinv.
  apply (cache_inv_weaken w); [done| | |by exists []; rewrite app_nil_r].
  - intros k [p e] Hk. by apply purged_lookup_Some in Hk as [? _].
  - pose proof (at_request_ticks clock token w). lia.
Qed.

Lemma cache_inv_network_branch token w1 :
  cache_inv w1 ->
  cache_inv (network_branch SSO_ISSUER clock provider token w1).2.
Proof.
  intros Hinv. unfold network_branch.
  destruct (provider _ _) as [err|[st body]] eqn:Hans; simpl.
  - apply (cache_inv_weaken w1); simpl; eauto.
  - destruct (st =? 200)%Z eqn:Hst; [destruct body as [p|]|]; simpl.
    + apply Z.eqb_eq in Hst as ->. intros k q e. simpl.
      destruct (decide (k = token)) as [->|Hne].
      * rewrite lookup_insert_eq. intros [= <- <-].
        exists (ticks w1). split; [lia|]. split; [done|].
        apply elem_of_app. right. by apply list_elem_of_singleton.
      * rewrite lookup_insert_ne by done. intros Hentry.
        destruct (Hinv k q e Hentry) as (n & Hn & He & Hin).
        exists n. split; [lia|]. split; [done|].
        apply elem_of_app. by left.
    + apply (cache_inv_weaken w1); simpl; eauto.
    + apply (cache_inv_weaken w1); simpl; eauto.
      intros k v [_ Hk]%lookup_delete_Some. done.
Qed.

Lemma cache_inv_verify token w : cache_inv w -> cache_inv (verify token w).2.
Proof.
  intros Hinv.
  destruct (verify_cases SSO_ISSUER clock provider token w)
    as [(p & e & _ & _ & ->)|[_ ->]].
  - apply (cache_inv_weaken w); simpl;
      [done| |lia|by exists []; rewrite app_nil_r].
    intros k [q e'] Hk. by apply purged_lookup_Some in Hk as [? _].
  - by apply cache_inv_network_branch, cache_inv_at_request.
Qed.

Lemma before_await_log token w :
  exists more, net_log (before_await token w).2 = net_log w ++ more.
Proof.
  destruct (verify_cases SSO_ISSUER clock provider token w)
    as [(p & e & Hkept & Hlt & _)|[Hstale _]].
  - rewrite (before_await_hit _ _ _ _ _ _ _ Hkept Hlt). simpl.
    exists []. by rewrite app_nil_r.
  - rewrite before_await_miss by done. simpl. eauto.
Qed.

Lemma cache_inv_before_await token w :
  cache_inv w -> cache_inv (before_await token w).2.
Proof.
  intros Hinv.
  destruct (before_await_world SSO_ISSUER clock provider token w) as [Hc Hticks].
  apply (cache_inv_weaken w); [done| |lia|apply before_await_log].
  intros k [p e]. rewrite Hc. by intros [? _]%purged_lookup_Some.
Qed.

Lemma cache_inv_after_await token out w :
  cache_inv w ->
  (verify_request SSO_ISSUER token, out) ∈ net_log w ->
  cache_inv (after_await token out w).2.
Proof.
  intros Hinv Hsent. rewrite after_await_eq. unfold delivered.
  destruct out as [err|[st body]]; simpl; [done|].
  destruct (st =? 200)%Z eqn:Hst; [destruct body as [p|]|]; simpl; [|done|].
  - apply Z.eqb_eq in Hst as ->. intros k q e. simpl.
    destruct (decide (k = token)) as [->|Hne].
    + rewrite lookup_insert_eq. intros [= <- <-].
      exists (ticks w). split; [lia|]. by split.
    + rewrite lookup_insert_ne by done. intros Hentry.
      destruct (Hinv k q e Hentry) as (n & Hn & He & Hin).
      exists n. split; [lia|]. by split.
  - apply (cache_inv_weaken w); simpl; [done| |lia|by exists []; rewrite app_nil_r].
    intros k v [_ Hk]%lookup_delete_Some. done.
Qed.

Lemma middleware_world_cases request w :
  (middleware request w).2 = w \/
  exists token, (middleware request w).2 = (verify token w).2.
Proof.
  destruct (_is_public_path (url_path request)) eqn:Hp.
  - left. unfold dispatch. by rewrite Hp.
  - destruct (_extract_token request) as [token|] eqn:He.
    + right. exists token. by apply middleware_world.
    + left. by rewrite middleware_no_credential.
Qed.

Lemma callback_world request w :
  token_cache (callback request w).2 = token_cache w /\
  ticks (callback request w).2 = ticks w /\
  exists more, net_log (callback request w).2 = net_log w ++ more.
Proof.
  unfold sso_callback, response_set_cookie, try_except_HTTPError, client_post,
    send_request, await_response, resp_json, raise, mbind, M_bind, mret, M_ret.
  destruct (negb _); simpl; [by eauto using app_nil_r|].
  destruct (provider _ _) as [err|[st [body|]]]; simpl; eauto;
    destruct (st =? 200)%Z; simpl; eauto.
  destruct (json_get _ _ _) as [tok|]; simpl; eauto.
  destruct (json_truthy tok); simpl; eauto.
  destruct (has_wide tok); simpl; eauto.
Qed.

Lemma cache_inv_step w w' : cache_inv w -> step w w' -> cache_inv w'.
Proof.
  intros Hinv Hstep.
  destruct Hstep as [w0|token w0|token w0|token out w0 Hsent|request w0|request w0].
  - by apply cache_inv_cleanup.
  - by apply cache_inv_verify.
  - by apply cache_inv_before_await.
  - by apply cache_inv_after_await.
  - destruct (middleware_world_cases request w0) as [->|[token ->]];
      [done|by apply cache_inv_verify].
  - destruct (callback_world request w0) as (Hc & Ht & Hlog).
    apply (cache_inv_weaken w0); [done| |lia|done].
    intros k v. by rewrite Hc.
Qed.

Lemma cache_inv_reachable w : reachable w -> cache_inv w.
Proof.
  induction 1 as [w Hempty|w w' _ IH Hstep].
  - by apply cache_inv_empty.
  - by apply (cache_inv_step w).
Qed.




End CacheInvariant.

(** * Worked instances *)

Module Instances.
Import Sample.

Definition identity_payload : json :=
  JObj {[ "sub" := JStr "u1"; "name" := JStr "Ada" ]}.

Lemma C2_public_path_admitted_witness :
  dispatch issuer client_id callback_url seconds (always (NetFail Timeout))
    (request "/healthz" ∅ [] []) start
  = (Ok (CallNext None), start).
Proof.
  apply C2_public_path_admitted. right.
  exists "/health", "z". split; [|reflexivity].
  apply list_elem_of_here.
Defined.

Lemma C3_unauthenticated_redirect_or_401_witness :
  (dispatch issuer client_id callback_url seconds (always (NetFail Timeout))
     (request "/api/private" ∅ [("accept", "text/html,application/xhtml+xml")] [])
     start).1
  = Ok (RedirectResponse
          (issuer +:+ "/authorize?" +:+
           UrlEncode.urlencode
             [ ("response_type", "code"); ("client_id", client_id);
               ("redirect_uri", callback_url);
               ("scope", "openid profile email");
               ("state", "https://agent.orcest.ai/api/private") ])
          302 []).
Proof.
  refine (proj1 (C3_unauthenticated_redirect_or_401 issuer client_id
                   callback_url seconds (always (NetFail Timeout))
                   (request "/api/private" ∅
                      [("accept", "text/html,application/xhtml+xml")] [])
                   start _ _ _) _).
  - reflexivity.
  - discriminate.
  - left. reflexivity.
  - exists EmptyString, ",application/xhtml+xml". reflexivity.
Defined.

Definition accepting : nat -> net_request -> net_outcome :=
  always (answer 200 (Some identity_payload)).

Definition revoking : nat -> net_request -> net_outcome :=
  first_then (answer 200 (Some identity_payload))
             (answer 403 (Some (JObj {[ "error" := JStr "revoked" ]}))).






(** The provider accepts the token once and answers 403 from then on:
    the second call finds the entry expired, sends its request, and its
    await delivers the 403. A call for another token and a second 403
    for the token follow. *)
Lemma C6_rejection_evicts_until_reinserted_witness :
  let verify := _verify_token issuer (every 200) revoking in
  let rejected :=
    {| resp_status := 403;
       resp_body := Some (JObj {[ "error" := JStr "revoked" ]}) |} in
  let w := (verify_before_await issuer (every 200) revoking "tok"
              (verify "tok" start).2).2 in
  let w1 := (verify_after_await (every 200) "tok" (NetResp rejected) w).2 in
  let w2 := after issuer (every 200) revoking
              [Call "other"; Receive "tok" (NetResp rejected)] w1 in
  (verify_after_await (every 200) "tok" (NetResp rejected) w).1 = Ok JNull /\
  token_cache w1 !! "tok" = None /\
  net_log (verify "tok" w2).2 =
  net_log w2 ++ [(verify_request issuer "tok",
                  verify_answer issuer revoking "tok" w2)].
Proof.
  destruct (C6_rejection_evicts_until_reinserted issuer (every 200) revoking "tok"
              (verify_before_await issuer (every 200) revoking "tok"
                 (_verify_token issuer (every 200) revoking "tok" start).2).2
              {| resp_status := 403;
                 resp_body := Some (JObj {[ "error" := JStr "revoked" ]}) |}
              [Call "other";
               Receive "tok" (NetResp {| resp_status := 403;
                 resp_body := Some (JObj {[ "error" := JStr "revoked" ]}) |})])
    as (Hnone & _ & Hgone & Hnext).
  - discriminate.
  - apply Forall_cons_2; [split; [discriminate|by intros []]|].
    apply Forall_cons_2; [split; [by intros []|by intros [_ ?]]|].
    apply Forall_nil_2.
  - split; [exact Hnone|]. split; [exact Hgone|exact Hnext].
Defined.

(** A provider that accepts the first two requests it gets and rejects
    the third. *)
Definition rejecting_third (n : nat) (req : net_request) : net_outcome :=
  match n with
  | 2%nat => answer 403 None
  | _ => answer 200 (Some identity_payload)
  end.

(** C6 as stated fails: three verifications of a token are waiting for
    the provider at once. The answer of the second, a 200, puts an
    entry in; the answer of the third, a 403, makes its call return
    None and removes the entry; the answer of the first, a 200, comes
    in last and puts an entry in again. The next call for the token is
    answered from the cache, and no request goes to the provider. *)
Lemma C6_waiting_verification_reinserts :
  let verify := _verify_token issuer seconds rejecting_third in
  let run := after issuer seconds rejecting_third in
  let accepted := answer 200 (Some identity_payload) in
  let w := run [Send "tok"; Send "tok"; Send "tok"; Receive "tok" accepted] start in
  let w1 := (verify_after_await seconds "tok" (answer 403 None) w).2 in
  let w2 := run [Receive "tok" accepted] w1 in
  net_log w = [(verify_request issuer "tok", accepted);
               (verify_request issuer "tok", accepted);
               (verify_request issuer "tok", answer 403 None)] /\
  is_Some (token_cache w !! "tok") /\
  (verify_after_await seconds "tok" (answer 403 None) w).1 = Ok JNull /\
  token_cache w1 !! "tok" = None /\
  (verify "tok" w2).1 = Ok identity_payload /\
  net_log (verify "tok" w2).2 = net_log w2.
Proof.
  repeat split; try by vm_compute.
  vm_compute. eauto.
Qed.


(** A 200 answer with an empty object admits the request. *)
Lemma C9_any_200_object_admitted_witness :
  exists user : gmap string json,
    (dispatch issuer client_id callback_url seconds
       (always (answer 200 (Some (JObj ∅))))
       (request "/api/private" {[ SSO_COOKIE_NAME := "tok" ]} [] []) start).1
    = Ok (CallNext (Some user)) /\
    dom user = {[ "sub"; "name"; "role"; "email" ]} /\
    (forall k, k ∈ dom user ->
       user !! k = Some (default (JStr EmptyString) ((∅ : gmap string json) !! k))).
Proof.
  apply (C9_any_200_object_admitted issuer client_id callback_url seconds
           (always (answer 200 (Some (JObj ∅))))
           (request "/api/private" {[ SSO_COOKIE_NAME := "tok" ]} [] [])
           "tok" start ∅).
  - reflexivity.
  - reflexivity.
  - vm_compute. reflexivity.
Defined.


End Instances.

(** * Further behaviour of the handlers *)

(** ** The callback handler, branch by branch *)

Section CallbackBranches.

Variables SSO_ISSUER SSO_CLIENT_ID SSO_CLIENT_SECRET SSO_CALLBACK_URL : string.
Variable provider : nat -> net_request -> net_outcome.

Local Abbreviation callback :=
  (sso_callback SSO_ISSUER SSO_CLIENT_ID SSO_CLIENT_SECRET SSO_CALLBACK_URL provider).
Local Abbreviation exchange :=
  (exchange_request SSO_ISSUER SSO_CLIENT_ID SSO_CLIENT_SECRET SSO_CALLBACK_URL).
Local Abbreviation answer_to :=
  (exchange_answer SSO_ISSUER SSO_CLIENT_ID SSO_CLIENT_SECRET SSO_CALLBACK_URL provider).

Ltac run_exchange Hcode Hne :=
  unfold sso_callback, exchange_answer, exchange_request,
    response_set_cookie, try_except_HTTPError, client_post, send_request,
    await_response, resp_json, raise, mbind, M_bind, mret, M_ret in *;
  rewrite Hcode; simpl;
  apply PyStrFacts.truthy_iff in Hne as ->; simpl.

(** The session cookie as the handler sets it. *)
Definition session_cookie (value : json) : Cookie :=
  {| ck_key := SSO_COOKIE_NAME; ck_value := value; ck_httponly := true;
     ck_secure := true; ck_samesite := "lax"; ck_max_age := 86400;
     ck_path := "/" |}.

(** Without a code, or with an empty one, the handler answers 400 and
    sends nothing upstream. *)
Theorem callback_missing_code request w :
  query_get "code" (query_params request) = None \/
  query_get "code" (query_params request) = Some EmptyString ->
  callback request w =
  (Ok (JSONResponse 400
         (JObj {[ "error" := JStr "missing_code";
                  "message" := JStr "No authorization code provided." ]})), w).
Proof. intros [Hcode|Hcode]; unfold sso_callback; by rewrite Hcode. Qed.

(** A 200 answer whose object has no access_token, or a falsy one (empty
    string, null, false, zero, empty list or object), gives 401. *)
Theorem callback_no_access_token request w code m :
  query_get "code" (query_params request) = Some code ->
  code <> EmptyString ->
  answer_to code w = NetResp {| resp_status := 200; resp_body := Some (JObj m) |} ->
  json_truthy (default (JStr EmptyString) (m !! "access_token")) = false ->
  (callback request w).1 =
  Ok (JSONResponse 401
        (JObj {[ "error" := JStr "no_access_token";
                 "message" := JStr "No access token in SSO response." ]})).
Proof.
  intros Hcode Hne Hans Hfalsy. run_exchange Hcode Hne.
  rewrite Hans. simpl. by rewrite Hfalsy.
Qed.

(** A 200 answer whose JSON body is not an object makes the handler
    raise AttributeError: the body has no [get]. *)
Theorem callback_non_object_body request w code body :
  query_get "code" (query_params request) = Some code ->
  code <> EmptyString ->
  answer_to code w = NetResp {| resp_status := 200; resp_body := Some body |} ->
  (forall m, body <> JObj m) ->
  (callback request w).1 = Raise AttributeError.
Proof.
  intros Hcode Hne Hans Hshape. run_exchange Hcode Hne.
  rewrite Hans. simpl. destruct body; try done. by destruct (Hshape m).
Qed.

(** With a code the handler sends exactly one request, the exchange
    form carrying that code, and touches neither cache nor clock. *)
Theorem callback_single_exchange request w code :
  query_get "code" (query_params request) = Some code ->
  code <> EmptyString ->
  token_cache (callback request w).2 = token_cache w /\
  ticks (callback request w).2 = ticks w /\
  net_log (callback request w).2 =
  net_log w ++ [(exchange code, answer_to code w)].
Proof.
  intros Hcode Hne. run_exchange Hcode Hne.
  destruct (provider _ _) as [err|[st [body|]]]; simpl; [done|..];
    destruct (st =? 200)%Z; simpl; try done.
  destruct (json_get _ _ _) as [tok|]; simpl; [|done].
  destruct (json_truthy tok); simpl; [|done].
  by destruct (has_wide tok).
Qed.

(** Whatever the handler returns is a JSON error with status 400, 401 or
    502, or a 302 to a non-empty target that sets one cookie: the session
    cookie, with a truthy value. It never forwards the request. *)
Theorem callback_response_shape request w r :
  (callback request w).1 = Ok r ->
  (exists st body, r = JSONResponse st body /\ (st = 400 \/ st = 401 \/ st = 502)%Z) \/
  (exists target value,
     r = RedirectResponse target 302 [session_cookie value] /\
     target <> EmptyString /\ json_truthy value = true).
Proof.
  unfold sso_callback, response_set_cookie, try_except_HTTPError, client_post,
    send_request, await_response, resp_json, raise, mbind, M_bind, mret, M_ret,
    session_cookie.
  destruct (negb _); simpl.
  { intros [= <-]. left. eauto 6. }
  destruct (provider _ _) as [err|[st [body|]]]; simpl.
  - intros [= <-]. left. eauto 6.
  - destruct (st =? 200)%Z; simpl; [|intros [= <-]; left; by eauto 6].
    destruct (json_get _ _ _) as [tok|]; simpl; [|done].
    destruct (json_truthy tok) eqn:Htok; simpl; [|intros [= <-]; left; by eauto 6].
    destruct (has_wide tok); simpl; [done|]. intros [= <-].
    right. do 2 eexists. split; [done|]. split; [|done].
    by destruct (query_get "state" _) as [[|c s]|].
  - destruct (st =? 200)%Z; simpl; [done|]. intros [= <-]. left. eauto 6.
Qed.

(** The cookie the handler sets is the credential the extractor reads:
    a later request presenting it is seen as carrying that token,
    whatever its Authorization header. *)
Theorem callback_cookie_is_extracted request w target cookie token later :
  (callback request w).1 = Ok (RedirectResponse target 302 [cookie]) ->
  ck_value cookie = JStr token ->
  cookies later !! ck_key cookie = Some token ->
  _extract_token later = Some token.
Proof.
  unfold sso_callback, response_set_cookie, try_except_HTTPError, client_post,
    send_request, await_response, resp_json, raise, mbind, M_bind, mret, M_ret.
  destruct (negb _); simpl; [done|].
  destruct (provider _ _) as [err|[st [body|]]]; simpl; [done|..];
    (destruct (st =? 200)%Z; simpl; [|done]); [|done].
  destruct (json_get _ _ _) as [tok|]; simpl; [|done].
  destruct (json_truthy tok) eqn:Htruthy; simpl; [|done].
  destruct (has_wide tok); simpl; [done|].
  intros [= _ <-]. simpl. intros -> Hlater.
  unfold _extract_token. rewrite Hlater. simpl.
  simpl in Htruthy. by rewrite Htruthy.
Qed.

End CallbackBranches.

(** ** White space around a token *)

Module StripFacts.
Import PyStr.

(** The string does not begin with white space. *)
Definition no_lead (s : string) : Prop :=
  match s with
  | EmptyString => True
  | String c _ => is_space c = false
  end.

Lemma lstrip_no_lead s : no_lead (lstrip s).
Proof.
  induction s as [|c s IH]; simpl; [done|].
  by destruct (is_space c) eqn:Hc.
Qed.

Lemma no_lead_lstrip s : no_lead s -> lstrip s = s.
Proof. destruct s as [|c s]; simpl; [done|]. by intros ->. Qed.

Lemma rstrip_no_lead s : no_lead s -> no_lead (rstrip s).
Proof.
  destruct s as [|c s]; simpl; [done|]. intros Hc.
  destruct (rstrip s); simpl; [by rewrite Hc|done].
Qed.

Lemma rstrip_idem s : rstrip (rstrip s) = rstrip s.
Proof.
  induction s as [|c s IH]; simpl; [done|].
  destruct (rstrip s) as [|d r] eqn:Hr.
  - destruct (is_space c) eqn:Hc; simpl; [done|by rewrite Hc].
  - simpl in *. by rewrite IH.
Qed.

Lemma rstrip_empty s : rstrip s = EmptyString -> all_space s = true.
Proof.
  induction s as [|c s IH]; simpl; [done|].
  destruct (rstrip s) as [|d r]; [|done].
  destruct (is_space c); [|done]. intros _. by apply IH.
Qed.

Lemma lstrip_all_space_inv s : all_space (lstrip s) = true -> all_space s = true.
Proof.
  induction s as [|c s IH]; simpl; [done|].
  destruct (is_space c) eqn:Hc; simpl; [done|by rewrite Hc].
Qed.

Lemma strip_empty s : strip s = EmptyString -> all_space s = true.
Proof. intros H. by apply lstrip_all_space_inv, rstrip_empty. Qed.

Lemma strip_fixed s : lstrip (strip s) = strip s /\ rstrip (strip s) = strip s.
Proof.
  unfold strip. split; [|apply rstrip_idem].
  apply no_lead_lstrip, rstrip_no_lead, lstrip_no_lead.
Qed.

End StripFacts.

(** ** More on the path classifier and the extractor *)

Lemma append_assoc (a b c : string) : (a +:+ b) +:+ c = a +:+ (b +:+ c).
Proof.
  induction a as [|x a IH]; [done|].
  change (String x ((a +:+ b) +:+ c) = String x (a +:+ (b +:+ c))).
  by f_equal.
Qed.

(** The exact-match set adds nothing: a path is public exactly when it
    starts with one of the prefixes. *)
Theorem public_path_iff_prefix path :
  _is_public_path path =
  existsb (fun prefix => PyStr.startswith prefix path)
          UNAUTHENTICATED_PATH_PREFIXES.
Proof.
  unfold _is_public_path. case_bool_decide as Hex; [|done].
  unfold UNAUTHENTICATED_EXACT_PATHS in Hex.
  apply elem_of_union in Hex as [Hex|Hex];
    apply elem_of_singleton in Hex as ->; reflexivity.
Qed.

(** Public paths are closed under extension: whatever is appended to a
    public path, the result is public too. *)
Theorem public_path_extends path rest :
  _is_public_path path = true ->
  _is_public_path (path +:+ rest) = true.
Proof.
  intros Hpub. apply is_public_path_iff. right.
  apply is_public_path_iff in Hpub as [Hex|(prefix & r & Hin & ->)].
  - exists path, rest. split; [|done].
    unfold UNAUTHENTICATED_EXACT_PATHS in Hex.
    apply elem_of_union in Hex as [Hex|Hex];
      apply elem_of_singleton in Hex as ->; set_solver.
  - exists prefix, (r +:+ rest). by rewrite append_assoc.
Qed.

(** A token taken from the Authorization header carries no white space
    at either end. *)
Theorem header_token_is_stripped request token :
  from_option PyStr.truthy false (cookies request !! SSO_COOKIE_NAME) = false ->
  _extract_token request = Some token ->
  PyStr.lstrip token = token /\ PyStr.rstrip token = token.
Proof.
  intros Hck. unfold _extract_token. rewrite Hck.
  destruct (PyStr.startswith _ _); [|done].
  intros [= <-]. apply StripFacts.strip_fixed.
Qed.

Lemma blank_bearer_header auth :
  (if PyStr.startswith "bearer " (PyStr.lower auth)
   then Some (PyStr.strip (PyStr.drop 7 auth)) else None) = Some EmptyString ->
  exists scheme blanks,
    auth = scheme +:+ blanks /\ PyStr.lower scheme = "bearer " /\
    PyStr.all_space blanks = true.
Proof.
  destruct (PyStr.startswith "bearer " (PyStr.lower auth)) eqn:Hsw; [|done].
  intros Hsome.
  assert (PyStr.strip (PyStr.drop 7 auth) = EmptyString) as Hstrip
    by congruence.
  apply PyStrFacts.lower_startswith_split in Hsw
    as (scheme & blanks & Hauth & Hscheme).
  exists scheme, blanks. split; [done|]. split; [done|].
  apply StripFacts.strip_empty. rewrite Hauth in Hstrip.
  assert (String.length scheme = 7%nat) as Hlen
    by (by rewrite <- PyStrFacts.lower_length, Hscheme).
  by rewrite <- Hlen, PyStrFacts.drop_app in Hstrip.
Qed.

(** The extractor returns the empty token exactly when the cookie is
    absent or empty and the Authorization header is the Bearer scheme
    followed by white space only. *)
Theorem empty_token_iff_blank_bearer request :
  _extract_token request = Some EmptyString <->
  (cookies request !! SSO_COOKIE_NAME = None \/
   cookies request !! SSO_COOKIE_NAME = Some EmptyString) /\
  exists scheme blanks,
    headers_get "authorization" EmptyString (headers request) = scheme +:+ blanks /\
    PyStr.lower scheme = "bearer " /\
    PyStr.all_space blanks = true.
Proof.
  unfold _extract_token. split.
  - destruct (cookies request !! SSO_COOKIE_NAME) as [[|c v]|] eqn:Hck;
      cbn [from_option PyStr.truthy]; cbv iota; [|done|].
    + intros Hauth%blank_bearer_header. split; [by right|done].
    + intros Hauth%blank_bearer_header. split; [by left|done].
  - intros [Hck (scheme & blanks & Hauth & Hscheme & Hblank)].
    assert (from_option PyStr.truthy false (cookies request !! SSO_COOKIE_NAME)
            = false) as -> by (by destruct Hck as [-> | ->]).
    rewrite Hauth, PyStrFacts.lower_app, Hscheme, PyStrFacts.startswith_app.
    assert (String.length scheme = 7%nat) as Hlen
      by (by rewrite <- PyStrFacts.lower_length, Hscheme).
    by rewrite <- Hlen, PyStrFacts.drop_app, PyStrFacts.strip_all_space.
Qed.

(** ** The query string of the login URL *)

Module UrlEncodeFacts.
Import UrlEncode.

(** What a query string may hold besides its separators: the characters
    [quote] leaves alone, the percent sign of an escape and the plus
    sign that stands for a space. *)
Definition query_char (c : ascii) : bool :=
  always_safe c || Ascii.eqb c "%" || Ascii.eqb c "+".

Fixpoint all_chars (p : ascii -> bool) (s : string) : bool :=
  match s with
  | EmptyString => true
  | String c s' => p c && all_chars p s'
  end.

(** The number of times a character occurs in a string. *)
Fixpoint occurrences (c : ascii) (s : string) : nat :=
  match s with
  | EmptyString => 0
  | String d s' => (if Ascii.eqb c d then 1 else 0) + occurrences c s'
  end.

Lemma append_cons c s t : String c s +:+ t = String c (s +:+ t).
Proof. reflexivity. Qed.

Lemma all_chars_app p s t :
  all_chars p (s +:+ t) = all_chars p s && all_chars p t.
Proof.
  induction s as [|c s IH]; [done|].
  rewrite append_cons. simpl. by rewrite IH, andb_assoc.
Qed.

Lemma occurrences_app c s t :
  occurrences c (s +:+ t) = (occurrences c s + occurrences c t)%nat.
Proof.
  induction s as [|d s IH]; [done|].
  rewrite append_cons. simpl. rewrite IH. lia.
Qed.

(** The escape of one character, and [quote_plus] as their concatenation. *)
Definition quote_char (c : ascii) : string := quote_plus (String c EmptyString).

Lemma quote_plus_cons c s :
  quote_plus (String c s) = quote_char c +:+ quote_plus s.
Proof.
  unfold quote_char. simpl.
  destruct (PyStr.code c =? 32)%N; [done|].
  destruct (always_safe c); [done|].
  by destruct (PyStr.code c <? 128)%N.
Qed.

Lemma quote_char_query c : all_chars query_char (quote_char c) = true.
Proof. destruct c as [[] [] [] [] [] [] [] []]; reflexivity. Qed.

Lemma quote_plus_query s : all_chars query_char (quote_plus s) = true.
Proof.
  induction s as [|c s IH]; [done|].
  by rewrite quote_plus_cons, all_chars_app, quote_char_query, IH.
Qed.

Lemma all_chars_occurrences p c s :
  p c = false -> all_chars p s = true -> occurrences c s = 0%nat.
Proof.
  intros Hc. induction s as [|d s IH]; simpl; [done|].
  intros [Hd Hs]%andb_true_iff. rewrite (IH Hs).
  destruct (Ascii.eqb c d) eqn:Heq; [|done].
  apply Ascii.eqb_eq in Heq as ->. congruence.
Qed.

(** A decoder, used to show that [quote_plus] loses nothing. *)
Definition hex_value (c : ascii) : N :=
  let n := PyStr.code c in if (n <? 58)%N then n - 48 else n - 55.

Definition byte_value (high low : ascii) : N := 16 * hex_value high + hex_value low.

Fixpoint unquote_plus (s : string) : string :=
  match s with
  | EmptyString => EmptyString
  | String c rest =>
      if Ascii.eqb c "+" then String " " (unquote_plus rest)
      else if Ascii.eqb c "%" then
        match rest with
        | String h1 (String l1 rest1) =>
            let b := byte_value h1 l1 in
            if (b <? 128)%N then String (Ascii.ascii_of_N b) (unquote_plus rest1)
            else
              match rest1 with
              | String _ (String h2 (String l2 rest2)) =>
                  String (Ascii.ascii_of_N ((b - 192) * 64 + (byte_value h2 l2 - 128)))
                         (unquote_plus rest2)
              | _ => EmptyString
              end
        | _ => EmptyString
        end
      else String c (unquote_plus rest)
  end.

Lemma unquote_quote_char c s :
  unquote_plus (quote_char c +:+ s) = String c (unquote_plus s).
Proof. destruct c as [[] [] [] [] [] [] [] []]; reflexivity. Qed.

Lemma unquote_quote_plus s : unquote_plus (quote_plus s) = s.
Proof.
  induction s as [|c s IH]; [done|].
  by rewrite quote_plus_cons, unquote_quote_char, IH.
Qed.

Lemma append_cancel p s t : p +:+ s = p +:+ t -> s = t.
Proof.
  induction p as [|c p IH]; [done|].
  rewrite !append_cons. intros [= H]. by apply IH.
Qed.

End UrlEncodeFacts.

Lemma quote_plus_inj s t :
  UrlEncode.quote_plus s = UrlEncode.quote_plus t -> s = t.
Proof.
  intros H. apply (f_equal UrlEncodeFacts.unquote_plus) in H.
  by rewrite !UrlEncodeFacts.unquote_quote_plus in H.
Qed.

(** [quote_plus] loses nothing: two different strings have different
    escapes. *)
Theorem quote_plus_distinct s t :
  s <> t -> UrlEncode.quote_plus s <> UrlEncode.quote_plus t.
Proof. intros Hne Heq. by apply Hne, quote_plus_inj. Qed.

Lemma pair_separators kv :
  UrlEncodeFacts.occurrences "&" (UrlEncode.pair kv) = 0%nat /\
  UrlEncodeFacts.occurrences "=" (UrlEncode.pair kv) = 1%nat.
Proof.
  unfold UrlEncode.pair.
  rewrite !UrlEncodeFacts.occurrences_app.
  pose proof (fun c H s => UrlEncodeFacts.all_chars_occurrences
                UrlEncodeFacts.query_char c (UrlEncode.quote_plus s) H
                (UrlEncodeFacts.quote_plus_query s)) as Hnone.
  by rewrite !(Hnone "&"%char eq_refl), !(Hnone "="%char eq_refl).
Qed.

(** Whatever the keys and values hold, the encoded query has one [=] per
    parameter and one [&] between two parameters: a value cannot bring
    in a parameter of its own. *)
Theorem urlencode_separators params :
  params <> [] ->
  UrlEncodeFacts.occurrences "&" (UrlEncode.urlencode params)
    = (length params - 1)%nat /\
  UrlEncodeFacts.occurrences "=" (UrlEncode.urlencode params) = length params.
Proof.
  induction params as [|kv [|kv' rest] IH]; [done| |]; intros _.
  - simpl. destruct (pair_separators kv) as [-> ->]. done.
  - change (UrlEncode.urlencode (kv :: kv' :: rest))
      with (UrlEncode.pair kv +:+ "&" +:+ UrlEncode.urlencode (kv' :: rest)).
    rewrite !UrlEncodeFacts.occurrences_app.
    destruct (pair_separators kv) as [-> ->].
    destruct (IH ltac:(done)) as [-> ->]. simpl. split; lia.
Qed.

Section LoginUrl.

Variables SSO_ISSUER SSO_CLIENT_ID SSO_CALLBACK_URL : string.

(** The login URL determines the URL it was built for: two different
    requested URLs never share a login redirect. *)
Theorem login_url_keeps_state u u' :
  u <> EmptyString -> u' <> EmptyString -> u <> u' ->
  _build_sso_login_url SSO_ISSUER SSO_CLIENT_ID SSO_CALLBACK_URL (Some u) <>
  _build_sso_login_url SSO_ISSUER SSO_CLIENT_ID SSO_CALLBACK_URL (Some u').
Proof.
  intros Hu%PyStrFacts.truthy_iff Hu'%PyStrFacts.truthy_iff Hne.
  unfold _build_sso_login_url. simpl from_option. rewrite Hu, Hu'.
  cbn [app UrlEncode.urlencode default]. unfold UrlEncode.pair.
  cbn [fst snd]. intros H.
  repeat (apply UrlEncodeFacts.append_cancel in H).
  by apply Hne, quote_plus_inj.
Qed.

End LoginUrl.

(** Whatever the configuration and the requested URL hold, the query of
    the login URL has five parameters: five [=] and four [&]. The
    requested URL cannot bring in a parameter of its own. *)
Theorem login_url_query_shape SSO_ISSUER SSO_CLIENT_ID SSO_CALLBACK_URL u :
  u <> EmptyString ->
  exists query,
    _build_sso_login_url SSO_ISSUER SSO_CLIENT_ID SSO_CALLBACK_URL (Some u)
    = SSO_ISSUER +:+ "/authorize?" +:+ query /\
    UrlEncodeFacts.occurrences "&" query = 4%nat /\
    UrlEncodeFacts.occurrences "=" query = 5%nat.
Proof.
  intros Hu%PyStrFacts.truthy_iff. unfold _build_sso_login_url.
  simpl from_option. rewrite Hu. eexists. split; [reflexivity|].
  by apply urlencode_separators.
Qed.

(** ** The remaining handlers *)

(** Return the current SSO user information: [GET /api/sso/me]. The
    argument is [getattr(request.state, 'sso_user', None)]. *)
Definition sso_me (sso_user : option (gmap string json)) : Response :=
  match sso_user with
  | None =>
      JSONResponse 401
        (JObj {[ "error" := JStr "not_authenticated";
                 "message" := JStr "No SSO session found." ]})
  | Some user => JSONResponse 200 (JObj user)
  end.

(** The arguments of [response.delete_cookie]. *)
Record CookieDeletion := {
  dc_key : string;
  dc_path : string;
  dc_httponly : bool;
  dc_secure : bool;
  dc_samesite : string;
}.

(** Clear the SSO cookie and redirect to the provider's logout endpoint:
    [GET /auth/logout]. The result is the redirect's URL and status with
    the cookie deletion made on it. *)
Definition sso_logout (SSO_ISSUER SSO_CALLBACK_URL : string)
    : string * Z * CookieDeletion :=
  let sso_logout_url := SSO_ISSUER +:+ "/logout?redirect_uri=" +:+ SSO_CALLBACK_URL in
  (sso_logout_url, 302%Z,
   {| dc_key := SSO_COOKIE_NAME; dc_path := "/"; dc_httponly := true;
      dc_secure := true; dc_samesite := "lax" |}).

Section Behaviour.

Variables SSO_ISSUER SSO_CLIENT_ID SSO_CLIENT_SECRET SSO_CALLBACK_URL : string.
Variable clock : nat -> Q.
Variable provider : nat -> net_request -> net_outcome.

Local Abbreviation verify := (_verify_token SSO_ISSUER clock provider).
Local Abbreviation middleware :=
  (dispatch SSO_ISSUER SSO_CLIENT_ID SSO_CALLBACK_URL clock provider).
Local Abbreviation callback :=
  (sso_callback SSO_ISSUER SSO_CLIENT_ID SSO_CLIENT_SECRET SSO_CALLBACK_URL provider).
Local Abbreviation unauthenticated :=
  (_unauthenticated_response SSO_ISSUER SSO_CLIENT_ID SSO_CALLBACK_URL).
Local Abbreviation reaches := (reaches_provider SSO_ISSUER clock provider).

(** The identity the middleware attaches for a payload. *)
Definition identity_of (m : gmap string json) : gmap string json :=
  {[ "sub" := default (JStr EmptyString) (m !! "sub");
     "name" := default (JStr EmptyString) (m !! "name");
     "role" := default (JStr EmptyString) (m !! "role");
     "email" := default (JStr EmptyString) (m !! "email") ]}.

Lemma verify_log_cases token w :
  net_log (verify token w).2 = net_log w \/
  net_log (verify token w).2 =
  net_log w ++ [(verify_request SSO_ISSUER token,
                 verify_answer SSO_ISSUER provider token w)].
Proof.
  destruct (verify_cases SSO_ISSUER clock provider token w)
    as [(p & e & _ & _ & ->)|[_ ->]]; [by left|right].
  by rewrite network_branch_log.
Qed.

(** One inbound request costs at most one upstream request, and that one
    is the verification of the token the request carries; a request on a
    public path or without a token costs none. *)
Theorem middleware_sends_at_most_one request w :
  net_log (middleware request w).2 = net_log w \/
  exists token,
    _is_public_path (url_path request) = false /\
    _extract_token request = Some token /\
    net_log (middleware request w).2 =
    net_log w ++ [(verify_request SSO_ISSUER token,
                   verify_answer SSO_ISSUER provider token w)].
Proof.
  destruct (_is_public_path (url_path request)) eqn:Hp.
  - left. unfold dispatch. by rewrite Hp.
  - destruct (_extract_token request) as [token|] eqn:He.
    + rewrite (middleware_world _ _ _ _ _ _ _ _ Hp He).
      destruct (verify_log_cases token w) as [Hlog|Hlog]; [by left|].
      right. by exists token.
    + left. by rewrite middleware_no_credential.
Qed.

(** Whatever the middleware returns is one of three things: the request
    forwarded without identity, on a public path; the request forwarded
    with an identity of the four fields, on a protected path for which
    the verifier returned an object; or the unauthenticated response, on
    a protected path. *)
Theorem middleware_outcomes request w r :
  (middleware request w).1 = Ok r ->
  (r = CallNext None /\ _is_public_path (url_path request) = true) \/
  (_is_public_path (url_path request) = false /\
   ((exists token m,
       _extract_token request = Some token /\
       (verify token w).1 = Ok (JObj m) /\
       r = CallNext (Some (identity_of m))) \/
    r = unauthenticated request)).
Proof.
  destruct (_is_public_path (url_path request)) eqn:Hp.
  - unfold dispatch. rewrite Hp. intros [= <-]. by left.
  - intros H. right. split; [done|].
    destruct (_extract_token request) as [token|] eqn:He.
    + rewrite (middleware_with_credential _ _ _ _ _ _ _ _ Hp He) in H.
      destruct (verify token w) as [[[]|] w'] eqn:Hv; simpl in H; try done.
      * injection H as <-. by right.
      * injection H as <-. left. exists token, m. by rewrite Hv.
    + rewrite middleware_no_credential in H by done. injection H as <-.
      by right.
Qed.

Lemma unauthenticated_not_forward request sso_user :
  unauthenticated request <> CallNext sso_user.
Proof.
  unfold _unauthenticated_response. by destruct (_is_browser_request request).
Qed.

(** From the empty cache on, a request is forwarded with an identity
    only if the provider has answered 200, with the object the identity
    is read from, to a verification of the very token the request
    carries. *)
Theorem admitted_token_was_accepted request w user :
  reachable SSO_ISSUER SSO_CLIENT_ID SSO_CLIENT_SECRET SSO_CALLBACK_URL
    clock provider w ->
  (middleware request w).1 = Ok (CallNext (Some user)) ->
  exists token m,
    _extract_token request = Some token /\
    user = identity_of m /\
    (verify_request SSO_ISSUER token,
     NetResp {| resp_status := 200; resp_body := Some (JObj m) |})
    ∈ net_log (middleware request w).2.
Proof.
  intros Hinv%cache_inv_reachable H.
  destruct (_is_public_path (url_path request)) eqn:Hp.
  { unfold dispatch in H. by rewrite Hp in H. }
  destruct (_extract_token request) as [token|] eqn:He.
  2: { rewrite middleware_no_credential in H by done. injection H as H.
       by apply unauthenticated_not_forward in H. }
  rewrite (middleware_world _ _ _ _ _ _ _ _ Hp He).
  rewrite (middleware_with_credential _ _ _ _ _ _ _ _ Hp He) in H.
  exists token.
  destruct (verify_cases SSO_ISSUER clock provider token w)
    as [(p & e & Hkept & _ & Heq)|[_ Heq]]; rewrite Heq in *.
  - destruct p; simpl in H; try done.
    + injection H as H. by apply unauthenticated_not_forward in H.
    + injection H as <-. exists m. split; [done|]. split; [done|]. simpl.
      apply purged_lookup_Some in Hkept as [Hentry _].
      by destruct (Hinv _ _ _ Hentry) as (n & _ & _ & Hin).
  - unfold network_branch in *.
    destruct (provider _ _) as [err|[st [p|]]] eqn:Hans; simpl in *.
    + injection H as H. by apply unauthenticated_not_forward in H.
    + destruct (st =? 200)%Z eqn:Hst; simpl in *.
      * apply Z.eqb_eq in Hst as ->.
        destruct p; simpl in H; try done.
        -- injection H as H. by apply unauthenticated_not_forward in H.
        -- injection H as <-. exists m. split; [done|]. split; [done|].
           apply elem_of_app. right. by apply list_elem_of_singleton.
      * injection H as H. by apply unauthenticated_not_forward in H.
    + destruct (st =? 200)%Z; simpl in *; [done|].
      injection H as H. by apply unauthenticated_not_forward in H.
Qed.

(** A 200 answer whose body is JSON null counts as a rejection, and is
    remembered: the entry expires at the float sum of the reading taken
    at its insertion and of the TTL, and a call that starts in the state
    the first one left and takes its two readings before that expiry
    answers None for the token without asking the provider again. *)
Theorem null_payload_is_remembered token w :
  reaches token w (NetResp {| resp_status := 200; resp_body := Some JNull |}) ->
  let w1 := (verify token w).2 in
  let e := Binary64.add (clock (pred (ticks w1))) _TOKEN_CACHE_TTL_SECONDS in
  (verify token w).1 = Ok JNull /\
  token_cache w1 !! token = Some (JNull, e) /\
  ((clock (ticks w1) < e)%Q -> (check_time clock w1 < e)%Q ->
   (verify token w1).1 = Ok JNull /\
   net_log (verify token w1).2 = net_log w1).
Proof.
  intros Hreach w1 e. subst w1 e.
  rewrite (verify_accepted _ _ _ _ _ _ Hreach). simpl.
  split; [done|]. split; [by rewrite lookup_insert_eq|].
  intros Hfresh Htest.
  erewrite verify_hit; [done| |done].
  apply purged_lookup_Some. simpl. by rewrite lookup_insert_eq.
Qed.

(** A 200 answer whose JSON body is neither an object nor null makes the
    middleware raise AttributeError: the payload has no [get]. *)
Theorem non_object_payload_raises request token w p :
  _is_public_path (url_path request) = false ->
  _extract_token request = Some token ->
  reaches token w (NetResp {| resp_status := 200; resp_body := Some p |}) ->
  p <> JNull ->
  (forall m, p <> JObj m) ->
  (middleware request w).1 = Raise AttributeError.
Proof.
  intros Hp He Hreach Hnull Hobj.
  rewrite (middleware_with_credential _ _ _ _ _ _ _ _ Hp He).
  rewrite (verify_accepted _ _ _ _ _ _ Hreach).
  destruct p; try done. by destruct (Hobj m).
Qed.

(** A verification that fails on the network returns None and leaves the
    cache as its clean-up left it: the entries not yet expired at the
    clean-up's reading, nothing added, nothing else removed. *)
Theorem verify_outage_keeps_cache token w err :
  reaches_provider SSO_ISSUER clock provider token w (NetFail err) ->
  (verify token w).1 = Ok JNull /\
  forall k p e,
    token_cache (verify token w).2 !! k = Some (p, e) <->
    token_cache w !! k = Some (p, e) /\ (clock (ticks w) < e)%Q.
Proof.
  intros Hreach. rewrite (verify_network_failure _ _ _ _ _ _ Hreach). simpl.
  split; [done|]. intros k p e. apply purged_lookup_Some.
Qed.

Lemma purged_purged t1 t2 c :
  (t1 <= t2)%Q -> purged t2 (purged t1 c) = purged t2 c.
Proof.
  intros Hle. apply map_eq. intros k. rewrite !purged_lookup.
  destruct (c !! k) as [v|]; [|done].
  destruct (Qle_bool v.2 t1) eqn:H1; [|done].
  apply Qle_bool_iff in H1.
  assert (Qle_bool v.2 t2 = true) as -> by (apply Qle_bool_iff; lra).
  done.
Qed.

(** Two clean-ups in a row leave the cache as the second alone would:
    with a clock that does not go back, the earlier sweep removes
    nothing the later one would keep. *)
Theorem cleanup_twice w :
  (clock (ticks w) <= clock (S (ticks w)))%Q ->
  token_cache (_cache_cleanup clock (_cache_cleanup clock w).2).2 =
  purged (clock (S (ticks w))) (token_cache w).
Proof.
  intros Hmono. rewrite !cache_cleanup_eq. simpl. by apply purged_purged.
Qed.

(** [/api/sso/me] served behind the middleware: the handler is given the
    state the middleware attached. *)
Definition me_route (request : Request) : M Response :=
  r ← middleware request;
  mret (match r with CallNext sso_user => sso_me sso_user | other => other end).

(** Behind the middleware, [/api/sso/me] answers either what the
    middleware answers to an unauthenticated request, or 200 with the
    four-field identity; the handler's own 401 is never reached. *)
Theorem me_behind_middleware request w r :
  url_path request = "/api/sso/me" ->
  (me_route request w).1 = Ok r ->
  (r = unauthenticated request \/
   exists m, r = JSONResponse 200 (JObj (identity_of m))) /\
  r <> sso_me None.
Proof.
  intros Hpath. unfold me_route, mbind, M_bind, mret, M_ret.
  assert (_is_public_path (url_path request) = false) as Hp
    by (by rewrite Hpath).
  assert (unauthenticated request <> sso_me None) as Hdiff.
  { unfold _unauthenticated_response. destruct (_is_browser_request request);
      [done|]. intros Heq.
    apply (f_equal (fun r => match r with
                             | JSONResponse _ (JObj m) => m !! "error"
                             | _ => None
                             end)) in Heq.
    by vm_compute in Heq. }
  destruct (_extract_token request) as [token|] eqn:He.
  - rewrite (middleware_with_credential _ _ _ _ _ _ _ _ Hp He).
    destruct (verify token w) as [[[]|] w']; simpl; try done.
    + intros [= <-]. pose proof (unauthenticated_not_forward request) as Hnf.
      destruct (unauthenticated request) eqn:Hu; try (by split; [left|]).
      by destruct (Hnf sso_user).
    + intros [= <-]. split; [right; by exists m|done].
  - rewrite middleware_no_credential by done. simpl.
    intros [= <-]. pose proof (unauthenticated_not_forward request) as Hnf.
    destruct (unauthenticated request) eqn:Hu; try (by split; [left|]).
    by destruct (Hnf sso_user).
Qed.

(** The cookie the logout handler deletes is the one the callback sets:
    same name, same path, same flags. *)
Theorem logout_deletes_session_cookie request w target cookie :
  (callback request w).1 = Ok (RedirectResponse target 302 [cookie]) ->
  let deletion := (sso_logout SSO_ISSUER SSO_CALLBACK_URL).2 in
  dc_key deletion = ck_key cookie /\
  dc_path deletion = ck_path cookie /\
  dc_httponly deletion = ck_httponly cookie /\
  dc_secure deletion = ck_secure cookie /\
  dc_samesite deletion = ck_samesite cookie.
Proof.
  unfold sso_callback, response_set_cookie, try_except_HTTPError, client_post,
    send_request, await_response, resp_json, raise, mbind, M_bind, mret, M_ret.
  destruct (negb _); simpl; [done|].
  destruct (provider _ _) as [err|[st [body|]]]; simpl; [done|..];
    (destruct (st =? 200)%Z; simpl; [|done]); [|done].
  destruct (json_get _ _ _) as [tok|]; simpl; [|done].
  destruct (json_truthy tok); simpl; [|done].
  destruct (has_wide tok); simpl; [done|].
  by intros [= _ <-].
Qed.

End Behaviour.

(** ** One token beside another, and the provider behind the cache *)

Section Isolation.

Variable SSO_ISSUER : string.
Variable clock : nat -> Q.

(** Verifying one token leaves every other token's entry that has not
    expired at the clean-up's reading exactly as it was, whatever the
    provider answers. *)
Theorem verify_leaves_other_tokens provider token w k p e :
  k <> token ->
  token_cache w !! k = Some (p, e) ->
  (clock (ticks w) < e)%Q ->
  token_cache (_verify_token SSO_ISSUER clock provider token w).2 !! k
  = Some (p, e).
Proof.
  intros Hne Hentry Hfresh. rewrite verify_other by done.
  by apply purged_lookup_Some.
Qed.

(** While a token's entry is fresh the provider is out of the picture:
    the verifier returns the cached payload and ends in the same state
    whatever the provider would answer, so a token revoked upstream
    keeps being accepted until its entry expires. *)
Theorem fresh_entry_hides_provider provider provider' token w p e :
  token_cache w !! token = Some (p, e) ->
  (clock (ticks w) < e)%Q ->
  (check_time clock w < e)%Q ->
  (_verify_token SSO_ISSUER clock provider token w).1 = Ok p /\
  _verify_token SSO_ISSUER clock provider token w =
  _verify_token SSO_ISSUER clock provider' token w.
Proof.
  intros Hentry Hfresh Htest.
  assert (purged (clock (ticks w)) (token_cache w) !! token = Some (p, e))
    as Hkept by (by apply purged_lookup_Some).
  by rewrite !(verify_hit _ _ _ _ _ _ _ Hkept Htest).
Qed.

End Isolation.

(** * Worked instances of the further behaviour *)

Module MoreInstances.
Import Sample.

Definition token_answer : nat -> net_request -> net_outcome :=
  always (answer 200 (Some (JObj {[ "access_token" := JStr "tok1" ]}))).

Definition with_code : Request :=
  request "/auth/callback" ∅ [] [("code", "abc123")].

Definition with_cookie (path : string) : Request :=
  request path {[ SSO_COOKIE_NAME := "tok" ]} [] [].

Definition object_answer : nat -> net_request -> net_outcome :=
  always (answer 200 (Some (JObj {[ "sub" := JStr "u1" ]}))).

Lemma callback_missing_code_witness :
  sso_callback issuer client_id client_secret callback_url token_answer
    (request "/auth/callback" ∅ [] [("state", "/settings")]) start
  = (Ok (JSONResponse 400
           (JObj {[ "error" := JStr "missing_code";
                    "message" := JStr "No authorization code provided." ]})),
     start).
Proof. apply callback_missing_code. by left. Defined.

Lemma callback_unreachable_witness :
  (sso_callback issuer client_id client_secret callback_url
     (always (NetFail ConnectError)) with_code start).1
  = Ok (JSONResponse 502
          (JObj {[ "error" := JStr "sso_unavailable";
                   "message" := JStr "Unable to reach SSO server." ]})).
Proof.
  apply (callback_unreachable issuer client_id client_secret callback_url
           (always (NetFail ConnectError)) with_code start "abc123" ConnectError);
    [reflexivity|discriminate|reflexivity].
Defined.

Lemma callback_rejected_witness :
  (sso_callback issuer client_id client_secret callback_url
     (always (answer 400 None)) with_code start).1
  = Ok (JSONResponse 401
          (JObj {[ "error" := JStr "token_exchange_failed";
                   "message" := JStr "SSO token exchange failed." ]})).
Proof.
  apply (callback_rejected issuer client_id client_secret callback_url
           (always (answer 400 None)) with_code start "abc123" 400 None);
    [reflexivity|discriminate|reflexivity|discriminate].
Defined.

Lemma callback_no_access_token_witness :
  (sso_callback issuer client_id client_secret callback_url
     (always (answer 200 (Some (JObj {[ "access_token" := JNull ]}))))
     with_code start).1
  = Ok (JSONResponse 401
          (JObj {[ "error" := JStr "no_access_token";
                   "message" := JStr "No access token in SSO response." ]})).
Proof.
  apply (callback_no_access_token issuer client_id client_secret callback_url
           (always (answer 200 (Some (JObj {[ "access_token" := JNull ]}))))
           with_code start "abc123" {[ "access_token" := JNull ]});
    [reflexivity|discriminate|reflexivity|reflexivity].
Defined.

Lemma callback_non_object_body_witness :
  (sso_callback issuer client_id client_secret callback_url
     (always (answer 200 (Some (JList [JStr "tok1"])))) with_code start).1
  = Raise AttributeError.
Proof.
  apply (callback_non_object_body issuer client_id client_secret callback_url
           (always (answer 200 (Some (JList [JStr "tok1"]))))
           with_code start "abc123" (JList [JStr "tok1"]));
    [reflexivity|discriminate|reflexivity|discriminate].
Defined.

Lemma callback_single_exchange_witness :
  let after :=
    (sso_callback issuer client_id client_secret callback_url token_answer
       with_code start).2 in
  token_cache after = token_cache start /\
  ticks after = ticks start /\
  net_log after =
  net_log start ++
  [(exchange_request issuer client_id client_secret callback_url "abc123",
    exchange_answer issuer client_id client_secret callback_url token_answer
      "abc123" start)].
Proof.
  apply (callback_single_exchange issuer client_id client_secret callback_url
           token_answer with_code start "abc123");
    [reflexivity|discriminate].
Defined.

Lemma callback_response_shape_witness :
  (exists st body,
     RedirectResponse "/" 302 [session_cookie (JStr "tok1")]
     = JSONResponse st body /\ (st = 400 \/ st = 401 \/ st = 502)%Z) \/
  (exists target value,
     RedirectResponse "/" 302 [session_cookie (JStr "tok1")]
     = RedirectResponse target 302 [session_cookie value] /\
     target <> EmptyString /\ json_truthy value = true).
Proof.
  apply (callback_response_shape issuer client_id client_secret callback_url
           token_answer with_code start). reflexivity.
Defined.

Lemma callback_cookie_is_extracted_witness :
  _extract_token
    (request "/api/private" {[ SSO_COOKIE_NAME := "tok1" ]}
       [("authorization", "Bearer other")] [])
  = Some "tok1".
Proof.
  apply (callback_cookie_is_extracted issuer client_id client_secret
           callback_url token_answer with_code start "/"
           (session_cookie (JStr "tok1")));
    reflexivity.
Defined.

Lemma public_path_extends_witness :
  _is_public_path ("/health" +:+ "/../api/private") = true.
Proof. apply public_path_extends. reflexivity. Defined.

Lemma header_token_is_stripped_witness :
  PyStr.lstrip "abc" = "abc" /\ PyStr.rstrip "abc" = "abc".
Proof.
  apply (header_token_is_stripped
           (request "/api/private" ∅ [("authorization", "Bearer   abc  ")] []));
    reflexivity.
Defined.

Lemma quote_plus_distinct_witness :
  UrlEncode.quote_plus "a b" <> UrlEncode.quote_plus "a+b".
Proof. apply quote_plus_distinct. discriminate. Defined.

Lemma urlencode_separators_witness :
  let query := UrlEncode.urlencode [("scope", "a&b=c"); ("state", "/x?y=1&z=2")] in
  UrlEncodeFacts.occurrences "&" query = 1%nat /\
  UrlEncodeFacts.occurrences "=" query = 2%nat.
Proof. apply urlencode_separators. discriminate. Defined.

Lemma login_url_keeps_state_witness :
  _build_sso_login_url issuer client_id callback_url (Some "/a b") <>
  _build_sso_login_url issuer client_id callback_url (Some "/a+b").
Proof. apply login_url_keeps_state; discriminate. Defined.

Lemma login_url_query_shape_witness :
  exists query,
    _build_sso_login_url issuer client_id callback_url (Some "/x?y=1&z=2")
    = issuer +:+ "/authorize?" +:+ query /\
    UrlEncodeFacts.occurrences "&" query = 4%nat /\
    UrlEncodeFacts.occurrences "=" query = 5%nat.
Proof. apply login_url_query_shape. discriminate. Defined.

Lemma middleware_outcomes_witness :
  (CallNext (Some (identity_of {[ "sub" := JStr "u1" ]})) = CallNext None /\
   _is_public_path (url_path (with_cookie "/api/private")) = true) \/
  (_is_public_path (url_path (with_cookie "/api/private")) = false /\
   ((exists token m,
       _extract_token (with_cookie "/api/private") = Some token /\
       (_verify_token issuer seconds object_answer token start).1 = Ok (JObj m) /\
       CallNext (Some (identity_of {[ "sub" := JStr "u1" ]}))
       = CallNext (Some (identity_of m))) \/
    CallNext (Some (identity_of {[ "sub" := JStr "u1" ]}))
    = _unauthenticated_response issuer client_id callback_url
        (with_cookie "/api/private"))).
Proof.
  apply (middleware_outcomes issuer client_id callback_url seconds
           object_answer (with_cookie "/api/private") start).
  reflexivity.
Defined.

Lemma admitted_token_was_accepted_witness :
  exists token m,
    _extract_token (with_cookie "/api/private") = Some token /\
    identity_of {[ "sub" := JStr "u1" ]} = identity_of m /\
    (verify_request issuer token,
     NetResp {| resp_status := 200; resp_body := Some (JObj m) |})
    ∈ net_log (dispatch issuer client_id callback_url seconds object_answer
                 (with_cookie "/api/private") start).2.
Proof.
  apply (admitted_token_was_accepted issuer client_id client_secret
           callback_url seconds object_answer).
  - by apply reach_start.
  - reflexivity.
Defined.

(** The null payload is put in at the float next to 1000.1; the next
    call reads 1100 and 1150, before the expiry at the float next to
    1300.1. *)
Lemma null_payload_is_remembered_witness :
  let verify := _verify_token issuer float_clock (always (answer 200 (Some JNull))) in
  let w1 := (verify "tok" start).2 in
  (verify "tok" w1).1 = Ok JNull /\ net_log (verify "tok" w1).2 = net_log w1.
Proof.
  refine (proj2 (proj2 (null_payload_is_remembered issuer float_clock
                          (always (answer 200 (Some JNull))) "tok" start _))
            _ _).
  - vm_compute. reflexivity.
  - vm_compute. reflexivity.
  - vm_compute. reflexivity.
Defined.

Lemma non_object_payload_raises_witness :
  (dispatch issuer client_id callback_url seconds
     (always (answer 200 (Some (JStr "ok")))) (with_cookie "/api/private")
     start).1
  = Raise AttributeError.
Proof.
  apply (non_object_payload_raises issuer client_id callback_url seconds
           (always (answer 200 (Some (JStr "ok")))) (with_cookie "/api/private")
           "tok" start (JStr "ok"));
    [reflexivity|reflexivity|vm_compute; reflexivity|discriminate|discriminate].
Defined.

Lemma verify_outage_keeps_cache_witness :
  (_verify_token issuer seconds (always (NetFail Timeout)) "tok" start).1
  = Ok JNull.
Proof.
  refine (proj1 (verify_outage_keeps_cache issuer seconds
                   (always (NetFail Timeout)) "tok" start Timeout _)).
  vm_compute. reflexivity.
Defined.

Lemma cleanup_twice_witness :
  token_cache (_cache_cleanup seconds (_cache_cleanup seconds start).2).2
  = purged (seconds 1) (token_cache start).
Proof. apply (cleanup_twice seconds start). vm_compute. discriminate. Defined.

Lemma me_behind_middleware_witness :
  (JSONResponse 200 (JObj (identity_of {[ "sub" := JStr "u1" ]}))
   = _unauthenticated_response issuer client_id callback_url
       (with_cookie "/api/sso/me") \/
   exists m,
     JSONResponse 200 (JObj (identity_of {[ "sub" := JStr "u1" ]}))
     = JSONResponse 200 (JObj (identity_of m))) /\
  JSONResponse 200 (JObj (identity_of {[ "sub" := JStr "u1" ]})) <> sso_me None.
Proof.
  apply (me_behind_middleware issuer client_id callback_url seconds
           object_answer (with_cookie "/api/sso/me") start);
    reflexivity.
Defined.

Lemma logout_deletes_session_cookie_witness :
  let deletion := (sso_logout issuer callback_url).2 in
  let cookie := session_cookie (JStr "tok1") in
  dc_key deletion = ck_key cookie /\
  dc_path deletion = ck_path cookie /\
  dc_httponly deletion = ck_httponly cookie /\
  dc_secure deletion = ck_secure cookie /\
  dc_samesite deletion = ck_samesite cookie.
Proof.
  apply (logout_deletes_session_cookie issuer client_id client_secret
           callback_url token_answer with_code start "/").
  reflexivity.
Defined.

Definition two_entries : World :=
  {| token_cache := {[ "tok" := (Instances.identity_payload, 300%Q);
                       "other" := (JObj ∅, 400%Q) ]};
     ticks := 10; net_log := [] |}.

Lemma verify_leaves_other_tokens_witness :
  token_cache
    (_verify_token issuer seconds (always (answer 403 None)) "tok" two_entries).2
    !! "other"
  = Some (JObj ∅, 400%Q).
Proof.
  apply verify_leaves_other_tokens;
    [discriminate|reflexivity|vm_compute; reflexivity].
Defined.

Lemma fresh_entry_hides_provider_witness :
  (_verify_token issuer seconds (always (answer 403 None)) "tok" two_entries).1
  = Ok Instances.identity_payload /\
  _verify_token issuer seconds (always (answer 403 None)) "tok" two_entries =
  _verify_token issuer seconds Instances.accepting "tok" two_entries.
Proof.
  apply (fresh_entry_hides_provider issuer seconds (always (answer 403 None))
           Instances.accepting "tok" two_entries Instances.identity_payload
           300%Q);
    [reflexivity|vm_compute; reflexivity|vm_compute; reflexivity].
Defined.

End MoreInstances.
